(** * superqt.signal: a shallow embedding of [_signal.py]

    The module implements a Qt-like signal/slot mechanism in pure Python:
    [Signal] is the class-level descriptor, [SignalInstance] the per-object
    dispatcher holding the list of connected slots, [SignalBlocker] the
    context manager returned by [SignalInstance.blocked].

    Python objects are modelled by the small universe [PyValue]; methods that
    mutate [self] are state transformers in the monad [M], whose results carry
    the state reached when an exception is raised, so that what a failed call
    leaves behind can be stated and proved. *)

From Stdlib Require Import ZArith List String Bool Lia DecimalString.
Import ListNotations.
Local Open Scope Z_scope.
Set Warnings "-register-all".

(* ================================================================= *)
(** ** Python values *)

(** [inspect.Parameter.kind] *)
Inductive ParamKind :=
| POSITIONAL_ONLY
| POSITIONAL_OR_KEYWORD
| VAR_POSITIONAL
| KEYWORD_ONLY
| VAR_KEYWORD.

(** Classes are named by numbers.  [Parameter.empty] (also reachable as
    [Signature.empty]) is itself a class, [inspect._empty]. *)
Definition PyClass := nat.
Definition _empty : PyClass := 0%nat.

(** What may stand in an annotation. *)
Inductive Annotation :=
| Cls (c : PyClass)                 (* a class, e.g. [int] *)
| UnionOf (args : list Annotation)  (* [typing.Union[...]] *)
| StrAnn (s : string)               (* a string (postponed annotation) *)
| NoneAnn                           (* [None] *)
| OtherAnn (n : nat).               (* any other object, e.g. [List[int]] *)

(** [inspect.Parameter] ([Parameter] is a reserved word here):
    [default = None] stands for [Parameter.empty]. *)
Record PyParameter := mkParameter {
  name : string;
  kind : ParamKind;
  default : option nat;
  annotation : Annotation
}.

(** [inspect.Signature], as the ordered values of [sig.parameters]. *)
Definition Signature := list PyParameter.

Definition ObjId := nat.

(** The values that reach the dispatcher.  A weak reference is named by its
    referent, since [weakref.ref(o)] returns the same reference object on
    every call.  Not every object can be weakly referenced (an instance of a
    class with [__slots__] and no [__weakref__] cannot): a bound method and a
    tuple say which kind of receiver they hold.  [sig = None] on a callable
    means that [inspect.signature] finds no signature for it. *)
Inductive PyValue :=
| Function (id : nat) (sig : option Signature)
    (* a function, or another callable that is no method and has the default
       [__eq__] *)
| BoundMethod (self : ObjId) (meth : string) (sig : option Signature)
    (* [self.meth], of a receiver that can be weakly referenced *)
| ObjNamePair (obj : ObjId) (meth : string)
    (* the tuple [(obj, "meth")], of such an object *)
| RefNamePair (ref : ObjId) (meth : string)         (* the tuple [(weakref.ref(obj), "meth")] *)
| PyInt (z : Z)
| Other (id : nat)
    (* any other object with the default [__eq__]: not callable, not a tuple *)
| SlottedMethod (self : ObjId) (meth : string) (sig : option Signature)
    (* [self.meth], of a receiver that cannot be weakly referenced *)
| SlottedPair (obj : ObjId) (meth : string).
    (* the tuple [(obj, "meth")], of such an object *)

(** [StoredSlot = Tuple[NormedCallback, int]] *)
Definition StoredSlot := (PyValue * Z)%type.

Definition ParamKind_eq_dec (a b : ParamKind) : {a = b} + {a <> b}.
Proof. decide equality. Defined.

Fixpoint Annotation_eq_dec (a b : Annotation) {struct a} : {a = b} + {a <> b}.
Proof.
  decide equality;
    try apply Nat.eq_dec; try apply string_dec.
  apply (list_eq_dec Annotation_eq_dec).
Defined.

Definition PyParameter_eq_dec (a b : PyParameter) : {a = b} + {a <> b}.
Proof.
  decide equality;
    [ apply Annotation_eq_dec
    | decide equality; apply Nat.eq_dec
    | apply ParamKind_eq_dec
    | apply string_dec ].
Defined.

Definition PyValue_eq_dec (a b : PyValue) : {a = b} + {a <> b}.
Proof.
  decide equality;
    try apply Nat.eq_dec; try apply string_dec; try apply Z.eq_dec;
    decide equality; apply (list_eq_dec PyParameter_eq_dec).
Defined.

(** [a is b], and [a == b] for values that compare by identity. *)
Definition py_eq (a b : PyValue) : bool :=
  if PyValue_eq_dec a b then true else false.

Section Equality.

(** What [==] needs to know of the objects: which are alive, and what their
    [__eq__] answers ([equal o1 o2] for [o1 == o2], on two live objects). *)
Variable alive : ObjId -> bool.
Variable equal : ObjId -> ObjId -> bool.

(** [weakref.ref(o1) == weakref.ref(o2)]: the referents are compared while
    both are alive, and the reference objects by identity otherwise.  As an
    element of a tuple, a reference equals itself whatever [__eq__] says. *)
Definition ref_eq (o1 o2 : ObjId) : bool :=
  Nat.eqb o1 o2 || (alive o1 && alive o2 && equal o1 o2).

(** [a == b]: tuples compare by components, everything else by identity. *)
Definition slot_eq (a b : PyValue) : bool :=
  match a, b with
  | RefNamePair r1 n1, RefNamePair r2 n2 => ref_eq r1 r2 && String.eqb n1 n2
  | (ObjNamePair o1 n1 | SlottedPair o1 n1), (ObjNamePair o2 n2 | SlottedPair o2 n2) =>
      (Nat.eqb o1 o2 || equal o1 o2) && String.eqb n1 n2
  | _, _ => py_eq a b
  end.

End Equality.

(** The texts of the exceptions the module raises, with their parameters. *)
Inductive Message :=
| NonCallable (slot : PyValue)
    (* "Cannot connect to non-callable object: {slot}" *)
| AlreadyConnected
    (* "Slot already connect. Use `connect(..., unique=False)` to allow duplicate connections" *)
| TooFewSpecParams (minargs n_spec_params : Z)
    (* "Slot requires at least {minargs} positional arguments, but spec only provides {n_spec_params}" *)
| TypesDoNotMatch (slot_sig spec : Signature)
    (* "Slot types {slot_sig} do not match types in {spec}" *)
| RequiredKeywordOnly
    (* "Required KEYWORD_ONLY parameters not allowed" *)
| CannotConnect (slot : PyValue) (errors : list Message) (accepted : list Signature)
    (* "Cannot connect slot {name!r} with signature: ...:" + "\n - {err}"* + "\n\nAccepted signatures: ..." *)
| NotConnected (slot : PyValue)
    (* "slot is not connected: {slot}" *)
| NoSignature (obj : PyValue)       (* raised by [inspect.signature] *)
| NotAClass                         (* raised by [issubclass] *)
| NotCallable (obj : PyValue)       (* calling something that is not callable *)
| IndexOutOfRange                   (* raised by [list.pop] *)
| CannotWeakref (obj : ObjId)
    (* "cannot create weak reference to '...' object", raised by [weakref.ref] *)
| Text (s : string).                (* raised by code outside this module *)

Inductive PyExn :=
| TypeError (m : Message)
| ValueError (m : Message)
| IndexError (m : Message)
| Exception (m : Message).

(* ================================================================= *)
(** ** Results and the state monad *)

(** The outcome of a call: a value, a raised exception, or (for the loops
    that need not terminate) exhausted fuel. *)
Inductive Res (A : Type) :=
| Ret (a : A)
| Exc (e : PyExn)
| OutOfFuel.
Arguments Ret {A} a.
Arguments Exc {A} e.
Arguments OutOfFuel {A}.

Definition res_bind {A B} (r : Res A) (k : A -> Res B) : Res B :=
  match r with
  | Ret a => k a
  | Exc e => Exc e
  | OutOfFuel => OutOfFuel
  end.

(** A computation over a state [S]: the state is returned whatever happens. *)
Definition M (S A : Type) := S -> Res A * S.

Definition ret {S A} (a : A) : M S A := fun s => (Ret a, s).
Definition raise {S A} (e : PyExn) : M S A := fun s => (Exc e, s).
Definition bind {S A B} (m : M S A) (k : A -> M S B) : M S B :=
  fun s =>
    match m s with
    | (Ret a, s') => k a s'
    | (Exc e, s') => (Exc e, s')
    | (OutOfFuel, s') => (OutOfFuel, s')
    end.
Definition get {S} : M S S := fun s => (Ret s, s).
Definition modify {S} (f : S -> S) : M S unit := fun s => (Ret tt, f s).
Definition lift_res {S A} (r : Res A) : M S A := fun s => (r, s).

(** [try: body finally: final], for a [final] that cannot raise. *)
Definition try_finally {S A} (body : M S A) (final : S -> S) : M S A :=
  fun s => let (r, s') := body s in (r, final s').

Declare Scope py_scope.
Delimit Scope py_scope with py.
Notation "x <- m ;; k" := (bind m (fun x => k))
  (at level 61, m at next level, right associativity) : py_scope.
Notation "m ;;; k" := (bind m (fun _ => k))
  (at level 61, right associativity) : py_scope.
Notation "x <~ r ;; k" := (res_bind r (fun x => k))
  (at level 61, r at next level, right associativity) : py_scope.
Local Open Scope py_scope.

(** [for x in xs: body x], over a list that the body does not alter. *)
Fixpoint for_each {S A} (xs : list A) (body : A -> M S unit) : M S unit :=
  match xs with
  | [] => ret tt
  | x :: rest => body x ;;; for_each rest body
  end.

(* ================================================================= *)
(** ** Python list and tuple operations *)

Definition len {A} (l : list A) : Z := Z.of_nat (List.length l).

(** [seq[:stop]] *)
Definition slice_to {A} (seq : list A) (stop : Z) : list A :=
  if stop <? 0
  then firstn (Z.to_nat (Z.max 0 (len seq + stop))) seq
  else firstn (Z.to_nat (Z.min stop (len seq))) seq.

(** [l.pop(idx)], for a non-negative [idx]: the list without its element
    [idx], or [IndexError]. *)
Definition pop {A} (l : list A) (idx : Z) : Res (list A) :=
  if (0 <=? idx) && (idx <? len l)
  then Ret (firstn (Z.to_nat idx) l ++ skipn (S (Z.to_nat idx)) l)
  else Exc (IndexError IndexOutOfRange).

(** [sorted(xs, key=key, reverse=True)]: descending, and stable (elements
    with equal keys keep their order). *)
Fixpoint insert_desc {A} (key : A -> Z) (x : A) (sorted_tail : list A) : list A :=
  match sorted_tail with
  | [] => [x]
  | y :: rest =>
      if key y <=? key x then x :: y :: rest
      else y :: insert_desc key x rest
  end.

Definition sorted_reverse {A} (xs : list A) (key : A -> Z) : list A :=
  fold_right (insert_desc key) [] xs.

(* ================================================================= *)
(** ** Inspecting callables *)

(** [callable(obj)] *)
Definition callable (obj : PyValue) : bool :=
  match obj with
  | Function _ _ | BoundMethod _ _ _ | SlottedMethod _ _ _ => true
  | _ => false
  end.

(** [inspect.ismethod(obj)] *)
Definition ismethod (obj : PyValue) : bool :=
  match obj with
  | BoundMethod _ _ _ | SlottedMethod _ _ _ => true
  | _ => false
  end.

(** [inspect.signature(obj)]: for a bound method, the signature without its
    receiver. *)
Definition signature (obj : PyValue) : Res Signature :=
  match obj with
  | Function _ (Some s) | BoundMethod _ _ (Some s)
  | SlottedMethod _ _ (Some s) => Ret s
  | Function _ None | BoundMethod _ _ None
  | SlottedMethod _ _ None => Exc (ValueError (NoSignature obj))
  | _ => Exc (TypeError (NotCallable obj))
  end.

(** The loop of [_acceptable_posarg_range], with its two counters. *)
Fixpoint posarg_range_loop (forbid_required_kwarg : bool)
    (params : list PyParameter) (required optional : Z) : Res (Z * Z) :=
  match params with
  | [] => Ret (required, required + optional)
  | param :: rest =>
      match kind param, default param with
      | (POSITIONAL_ONLY | POSITIONAL_OR_KEYWORD), None =>
          posarg_range_loop forbid_required_kwarg rest (required + 1) optional
      | (POSITIONAL_ONLY | POSITIONAL_OR_KEYWORD), Some _ =>
          posarg_range_loop forbid_required_kwarg rest required (optional + 1)
      | VAR_POSITIONAL, _ =>
          posarg_range_loop forbid_required_kwarg rest required (optional + 10 ^ 10)
      | KEYWORD_ONLY, None =>
          if forbid_required_kwarg
          then Exc (ValueError RequiredKeywordOnly)
          else posarg_range_loop forbid_required_kwarg rest required optional
      | _, _ =>
          posarg_range_loop forbid_required_kwarg rest required optional
      end
  end.

(** [_acceptable_posarg_range(sig, forbid_required_kwarg)]: the (min, max)
    numbers of positional arguments that [sig] accepts. *)
Definition _acceptable_posarg_range (sig : Signature)
    (forbid_required_kwarg : bool) : Res (Z * Z) :=
  posarg_range_loop forbid_required_kwarg sig 0 0.

(** [d.get(k)] on a dict given as its items. *)
Fixpoint dict_get {V} (d : list (string * V)) (k : string) : option V :=
  match d with
  | [] => None
  | (k', v) :: rest => if String.eqb k' k then Some v else dict_get rest k
  end.

(** [Signal._build_signature( *types)]: one positional-only parameter
    [p0], [p1], ... for each type. *)
Fixpoint build_parameters (i : nat) (types : list Annotation) : Signature :=
  match types with
  | [] => []
  | t :: rest =>
      mkParameter ("p" ++ NilZero.string_of_uint (Nat.to_uint i))%string
                  POSITIONAL_ONLY None t
      :: build_parameters (S i) rest
  end.

Definition _build_signature (types : list Annotation) : Signature :=
  build_parameters 0 types.

Section Typing.

(** The class hierarchy of the running program, and
    [typing_extensions.get_type_hints]. *)
Variable issubclass : PyClass -> PyClass -> bool.
Variable get_type_hints : PyValue -> Res (list (string * Annotation)).

(** [inspect.isclass] *)
Definition isclass (a : Annotation) : bool :=
  match a with Cls _ => true | _ => false end.

(** The builtin [issubclass(left, right)]: [TypeError] unless both are
    classes (as before Python 3.10, where a [typing.Union] is no valid
    second argument). *)
Definition py_issubclass (left right : Annotation) : Res bool :=
  match left, right with
  | Cls a, Cls b => Ret (issubclass a b)
  | _, _ => Exc (TypeError NotAClass)
  end.

(** [any(issubclass(i, right) for i in args)] *)
Fixpoint any_issubclass (args : list Annotation) (right : Annotation) : Res bool :=
  match args with
  | [] => Ret false
  | i :: rest =>
      b <~ py_issubclass i right ;;
      if b then Ret true else any_issubclass rest right
  end.

(** [_is_subclass(left, right)] *)
Definition _is_subclass (left right : Annotation) : Res bool :=
  match isclass left, left with
  | false, UnionOf args => any_issubclass args right
  | _, _ => py_issubclass left right
  end.

(** The loop of [_parameter_types_match] over
    [zip(fsig.parameters.values(), spec.parameters.values())];
    [func_hints] is computed at most once. *)
Fixpoint types_match_loop (function : PyValue)
    (func_hints : option (list (string * Annotation)))
    (pairs : list (PyParameter * PyParameter)) : Res bool :=
  match pairs with
  | [] => Ret true
  | (f_param, spec_param) :: rest =>
      let f_anno := annotation f_param in
      if Annotation_eq_dec f_anno (Cls _empty)
      then types_match_loop function func_hints rest
      else
        match f_anno with
        | StrAnn _ =>
            hints <~ match func_hints with
                     | None => get_type_hints function
                     | Some h => Ret h
                     end ;;
            let f_anno :=
              match dict_get hints (name f_param) with
              | Some a => a
              | None => NoneAnn
              end in
            ok <~ _is_subclass f_anno (annotation spec_param) ;;
            if ok then types_match_loop function (Some hints) rest
            else Ret false
        | _ =>
            ok <~ _is_subclass f_anno (annotation spec_param) ;;
            if ok then types_match_loop function func_hints rest
            else Ret false
        end
  end.

(** [_parameter_types_match(function, spec, func_sig)] *)
Definition _parameter_types_match (function : PyValue) (spec : Signature)
    (func_sig : option Signature) : Res bool :=
  fsig <~ match func_sig with
          | Some s => Ret s
          | None => signature function
          end ;;
  types_match_loop function None (combine fsig spec).

(* =============================================================== *)
(** ** SignalInstance *)

Record SignalInstance := mkSignalInstance {
  signatures : list Signature;
  _instance : option ObjId;
  _name : option string;
  _slots : list StoredSlot;
  _is_blocked : bool
}.

(** [SignalInstance(signatures, instance, name)] *)
Definition SignalInstance__init__ (signatures : list Signature)
    (instance : option ObjId) (name : option string) : SignalInstance :=
  mkSignalInstance signatures instance name [] false.

Definition set_slots (self : SignalInstance) (slots : list StoredSlot) :=
  mkSignalInstance (signatures self) (_instance self) (_name self)
                   slots (_is_blocked self).

Definition set_is_blocked (self : SignalInstance) (b : bool) :=
  mkSignalInstance (signatures self) (_instance self) (_name self)
                   (_slots self) b.

(** The [instance] property. *)
Definition instance (self : SignalInstance) : option ObjId := _instance self.

(** [_normalize_slot]: a bound method becomes the pair of a weak reference
    to its receiver and its name; so does a pair of an object and a name.
    [weakref.ref] raises [TypeError] for an object that cannot be weakly
    referenced. *)
Definition _normalize_slot (slot : PyValue) : Res PyValue :=
  match slot with
  | BoundMethod self meth _ => Ret (RefNamePair self meth)
  | SlottedMethod self _ _ => Exc (TypeError (CannotWeakref self))
  | ObjNamePair s0 s1 => Ret (RefNamePair s0 s1)
  | SlottedPair s0 _ => Exc (TypeError (CannotWeakref s0))
  | _ => Ret slot
  end.

(** The objects of the running program, as [==] sees them. *)
Variable alive : ObjId -> bool.
Variable equal : ObjId -> ObjId -> bool.

(** The loop of [_slot_index] over [enumerate(self._slots)], from index [i]. *)
Fixpoint slot_index_from (i : Z) (normed : PyValue) (slots : list StoredSlot) : Z :=
  match slots with
  | [] => -1
  | (s, m) :: rest =>
      if slot_eq alive equal s normed then i
      else slot_index_from (i + 1) normed rest
  end.

Definition _slot_index (self : SignalInstance) (slot : PyValue) : Res Z :=
  normed <~ _normalize_slot slot ;;
  Ret (slot_index_from 0 normed (_slots self)).

(** [slot in self] *)
Definition contains (self : SignalInstance) (slot : PyValue) : Res bool :=
  idx <~ _slot_index self slot ;;
  Ret (idx >=? 0).

(** [len(self)] *)
Definition SignalInstance__len__ (self : SignalInstance) : Z := len (_slots self).

(** The [unique] argument of [connect]: [Union[bool, str]]. *)
Inductive BoolOrStr :=
| PyBool (b : bool)
| PyStr (s : string).

(** Truth value of a [bool] or a [str]. *)
Definition truthy (v : BoolOrStr) : bool :=
  match v with
  | PyBool b => b
  | PyStr s => negb (String.eqb s "")
  end.

(** [v == s] for a string literal [s] *)
Definition eq_str (v : BoolOrStr) (s : string) : bool :=
  match v with
  | PyBool _ => false
  | PyStr s' => String.eqb s' s
  end.

(** The test [unique and (slot in self)] of [connect]: membership is asked
    only when [unique] is true. *)
Definition unique_and_contains (unique : BoolOrStr) (self : SignalInstance)
    (slot : PyValue) : Res bool :=
  if truthy unique then contains self slot else Ret false.

(** The body of the [try] in [connect], for one [spec]: the [maxargs] with
    which the loop is left, or the exception raised. *)
Definition try_spec (slot : PyValue) (check_types : bool)
    (slot_sig spec : Signature) : Res Z :=
  range <~ _acceptable_posarg_range slot_sig true ;;
  let '(minargs, maxargs) := range in
  let n_spec_params := len spec in
  if minargs >? n_spec_params
  then Exc (ValueError (TooFewSpecParams minargs n_spec_params))
  else if check_types
  then ok <~ _parameter_types_match slot spec (Some slot_sig) ;;
       if negb ok then Exc (ValueError (TypesDoNotMatch slot_sig spec))
       else Ret maxargs
  else Ret maxargs.

(** The [for ... else] of [connect] over the sorted signatures: a
    [ValueError] is recorded and the next signature tried, any other
    exception escapes, and the [else] branch raises when none was accepted. *)
Fixpoint match_signature (slot : PyValue) (check_types : bool)
    (slot_sig : Signature) (accepted : list Signature)
    (specs : list Signature) (errors : list Message) : Res Z :=
  match specs with
  | [] => Exc (ValueError (CannotConnect slot errors accepted))
  | spec :: rest =>
      match try_spec slot check_types slot_sig spec with
      | Exc (ValueError e) =>
          match_signature slot check_types slot_sig accepted rest (errors ++ [e])
      | r => r
      end
  end.

(** [SignalInstance.connect(slot, check_types, unique)] *)
Definition connect (slot : PyValue) (check_types : bool) (unique : BoolOrStr)
  : M SignalInstance unit :=
  if negb (callable slot) then raise (TypeError (NonCallable slot))
  else
    self <- get ;;
    connected <- lift_res (unique_and_contains unique self slot) ;;
    if connected
    then
      if eq_str unique "raise" then raise (ValueError AlreadyConnected)
      else ret tt
    else
      slot_sig <- lift_res (signature slot) ;;
      maxargs <- lift_res
        (match_signature slot check_types slot_sig (signatures self)
           (sorted_reverse (signatures self) len) []) ;;
      normed <- lift_res (_normalize_slot slot) ;;
      modify (fun self => set_slots self (_slots self ++ [(normed, maxargs)])).

(** [SignalInstance.disconnect(slot, missing_ok)] *)
Definition disconnect (slot : option PyValue) (missing_ok : bool)
  : M SignalInstance unit :=
  match slot with
  | None => modify (fun self => set_slots self [])
  | Some slot =>
      self <- get ;;
      idx <- lift_res (_slot_index self slot) ;;
      if idx >=? 0
      then slots <- lift_res (pop (_slots self) idx) ;;
           modify (fun self => set_slots self slots)
      else if negb missing_ok
      then raise (ValueError (NotConnected slot))
      else ret tt
  end.

(** [SignalInstance.block(should_block)] *)
Definition block (should_block : bool) : M SignalInstance unit :=
  modify (fun self => set_is_blocked self should_block).

End Typing.

(* ================================================================= *)
(** ** The running program: dispatchers, emitter context, objects *)

Section Emission.

(** Whatever else the program owns (what its callbacks read and write). *)
Variable U : Type.

(** The [__eq__] of the program's objects: [equal o1 o2] for [o1 == o2].
    It is code, and taken not to depend on the state. *)
Variable equal : ObjId -> ObjId -> bool.

(** The part of the interpreter's state that emission reads and writes:
    the [SignalInstance] objects (named by numbers), the class attribute
    [Signal._current_emitter], and the objects to which weak references
    point, which are alive or not and have attributes. *)
Record World := mkWorld {
  instances : nat -> SignalInstance;
  _current_emitter : option nat;
  alive : ObjId -> bool;
  attrs : ObjId -> string -> option PyValue;
  user : U
}.

Definition set_current_emitter (e : option nat) (w : World) : World :=
  mkWorld (instances w) e (alive w) (attrs w) (user w).

Definition set_instance (self : nat) (si : SignalInstance) (w : World) : World :=
  mkWorld (fun i => if Nat.eqb i self then si else instances w i)
          (_current_emitter w) (alive w) (attrs w) (user w).

(** A method of [SignalInstance] called on the instance named [self]. *)
Definition on_instance {A} (self : nat) (m : M SignalInstance A) : M World A :=
  fun w => let (r, si) := m (instances w self) in (r, set_instance self si w).

(** How the body of a callable runs: it may do anything to the world. *)
Variable invoke : PyValue -> list PyValue -> M World unit.

(** [cb( *args)] *)
Definition call (cb : PyValue) (args : list PyValue) : M World unit :=
  if callable cb then invoke cb args
  else raise (TypeError (NotCallable cb)).

(** [ref()]: the referent of a weak reference, or [None]. *)
Definition deref (w : World) (ref : ObjId) : option ObjId :=
  if alive w ref then Some ref else None.

(** [getattr(obj, name, None)] *)
Definition getattr (w : World) (obj : ObjId) (name : string) : option PyValue :=
  attrs w obj name.

(* =============================================================== *)
(** ** Signal *)

(** [Signal._emitting(emitter)], around the body of the [with]:
    [previous, cls._current_emitter = cls._current_emitter, emitter], then
    [try: yield  finally: cls._current_emitter = previous]. *)
Definition _emitting {A} (emitter : nat) (body : M World A) : M World A :=
  fun w =>
    let previous := _current_emitter w in
    try_finally body (set_current_emitter previous)
                (set_current_emitter (Some emitter) w).

(** [Signal.current_emitter()] *)
Definition current_emitter (w : World) : option nat := _current_emitter w.

(** [Signal.sender()]: [getattr(cls._current_emitter, "instance", None)] *)
Definition sender (w : World) : option ObjId :=
  match _current_emitter w with
  | None => None
  | Some e => instance (instances w e)
  end.

(* =============================================================== *)
(** ** SignalInstance.emit *)

(** The [for (slot, max_args) in self._slots] of [emit].  The list iterator
    reads the live list at its index [i], so the loop sees what callbacks do
    to the list while it runs, and need not terminate: each turn of the loop
    (and the final test) takes one unit of [fuel].  [rem] collects the dead
    references. *)
Fixpoint emit_loop (fuel : nat) (self : nat) (args : list PyValue)
    (i : nat) (rem : list PyValue) : M World (list PyValue) :=
  match fuel with
  | O => fun w => (OutOfFuel, w)
  | S fuel =>
      w <- get ;;
      match nth_error (_slots (instances w self)) i with
      | None => ret rem
      | Some (slot, max_args) =>
          match slot with
          | RefNamePair _ref method_name =>
              match deref w _ref with
              | None => emit_loop fuel self args (S i) (rem ++ [slot])
              | Some obj =>
                  match getattr w obj method_name with
                  | None => emit_loop fuel self args (S i) (rem ++ [slot])
                  | Some cb =>
                      call cb (slice_to args max_args) ;;;
                      emit_loop fuel self args (S i) rem
                  end
              end
          | ObjNamePair _ref _ | SlottedPair _ref _ =>
              (* a tuple whose first component is no weak reference:
                 [_ref()] calls a plain object *)
              raise (TypeError (NotCallable (Other _ref)))
          | cb =>
              call cb (slice_to args max_args) ;;;
              emit_loop fuel self args (S i) rem
          end
      end
  end.

(** [SignalInstance.emit( *args)] *)
Definition emit (fuel : nat) (self : nat) (args : list PyValue) : M World unit :=
  w <- get ;;
  if _is_blocked (instances w self) then ret tt
  else
    rem <- _emitting self (emit_loop fuel self args 0 []) ;;
    for_each rem (fun slot w =>
      on_instance self (disconnect (alive w) equal (Some slot) true) w).

(* =============================================================== *)
(** ** SignalBlocker *)

Record SignalBlocker := mkSignalBlocker { target : nat }.

(** [SignalInstance.blocked()] *)
Definition blocked (self : nat) : SignalBlocker := mkSignalBlocker self.

Definition SignalBlocker__enter__ (b : SignalBlocker) : M World unit :=
  on_instance (target b) (block true).

(** [__exit__] returns [None]: it never swallows an exception. *)
Definition SignalBlocker__exit__ (b : SignalBlocker) : M World unit :=
  on_instance (target b) (block false).

(** [with cm: body], for a context manager [cm] whose [__exit__] returns
    [None]: [__exit__] runs however [body] ends, and the outcome of [body]
    stands unless [__exit__] itself fails. *)
Definition py_with {A} (enter exit_ : M World unit) (body : M World A) : M World A :=
  enter ;;;
  (fun w =>
     let (r, w1) := body w in
     match exit_ w1 with
     | (Ret _, w2) => (r, w2)
     | (Exc e, w2) => (Exc e, w2)
     | (OutOfFuel, w2) => (OutOfFuel, w2)
     end).

(** [with self.blocked(): body] *)
Definition with_blocked {A} (self : nat) (body : M World A) : M World A :=
  let cm := blocked self in
  py_with (SignalBlocker__enter__ cm) (SignalBlocker__exit__ cm) body.

End Emission.

Arguments instances {U} w i.
Arguments _current_emitter {U} w.
Arguments alive {U} w o.
Arguments attrs {U} w o name.
Arguments user {U} w.
Arguments mkWorld {U}.
Arguments set_current_emitter {U}.
Arguments set_instance {U}.
Arguments on_instance {U A}.
Arguments call {U}.
Arguments deref {U}.
Arguments getattr {U}.
Arguments _emitting {U A}.
Arguments current_emitter {U}.
Arguments sender {U}.
Arguments emit_loop {U}.
Arguments emit {U}.
Arguments SignalBlocker__enter__ {U}.
Arguments SignalBlocker__exit__ {U}.
Arguments py_with {U A}.
Arguments with_blocked {U A}.

(* ================================================================= *)
(** ** Callbacks that use the public interface

    A family of callbacks to run the dispatcher with: their bodies read the
    emitter context, emit on dispatchers (nesting emissions) and raise. *)

(** What a callback saw when it looked: [Signal.current_emitter()],
    [Signal.sender()] and the arguments it was called with. *)
Record Observation := mkObservation {
  seen_emitter : option nat;
  seen_sender : option ObjId;
  seen_args : list PyValue
}.

Inductive Stmt :=
| Observe                                       (* record an [Observation] *)
| EmitOn (target : nat) (args : list PyValue)   (* [target.emit( *args)] *)
| TryEmitOn (target : nat) (args : list PyValue)
    (* [try: target.emit( *args)  except Exception: pass] *)
| RaiseExn (e : PyExn).                         (* [raise e] *)

(** The callbacks' state: the observations made so far. *)
Definition Journal := list Observation.

Definition record (args : list PyValue) (w : World Journal) : World Journal :=
  mkWorld (instances w) (_current_emitter w) (alive w) (attrs w)
          (user w ++ [mkObservation (current_emitter w) (sender w) args]).

Definition exec_stmt (emit_ : nat -> list PyValue -> M (World Journal) unit)
    (args : list PyValue) (s : Stmt) : M (World Journal) unit :=
  match s with
  | Observe => modify (record args)
  | EmitOn target a => emit_ target a
  | TryEmitOn target a =>
      fun w =>
        match emit_ target a w with
        | (Exc _, w') => (Ret tt, w')
        | other => other
        end
  | RaiseExn e => raise e
  end.

(** Running the callable [cb], whose body is [code cb]; [depth] bounds the
    nesting of calls and [fuel] the loops of the emissions it starts. *)
Fixpoint run_callback (equal : ObjId -> ObjId -> bool)
    (code : PyValue -> list Stmt) (fuel depth : nat)
    (cb : PyValue) (args : list PyValue) : M (World Journal) unit :=
  match depth with
  | O => fun w => (OutOfFuel, w)
  | S depth =>
      for_each (code cb)
               (exec_stmt (emit equal (run_callback equal code fuel depth) fuel)
                          args)
  end.

(* ================================================================= *)
(** ** The notions of the statements

    The counts and tests that the specification names (required and optional
    positional arguments, required keyword-only parameters), and what the
    statements about emission need: dead and live subscriptions, and
    conditions on the callbacks. *)

(** A positional parameter ([POSITIONAL_ONLY] or [POSITIONAL_OR_KEYWORD]). *)
Definition is_positional (p : PyParameter) : bool :=
  match kind p with
  | POSITIONAL_ONLY | POSITIONAL_OR_KEYWORD => true
  | _ => false
  end.

Definition has_default (p : PyParameter) : bool :=
  match default p with Some _ => true | None => false end.

(** The callback's minimum required positional-argument count. *)
Fixpoint required_posargs (sig : Signature) : Z :=
  match sig with
  | [] => 0
  | p :: rest =>
      (if is_positional p && negb (has_default p) then 1 else 0)
      + required_posargs rest
  end.

(** The positional arguments it accepts beyond the required ones. *)
Fixpoint optional_posargs (sig : Signature) : Z :=
  match sig with
  | [] => 0
  | p :: rest =>
      (if is_positional p && has_default p then 1
       else match kind p with VAR_POSITIONAL => 10 ^ 10 | _ => 0 end)
      + optional_posargs rest
  end.

(** A required keyword-only parameter. *)
Definition required_kwonly (p : PyParameter) : bool :=
  match kind p, default p with
  | KEYWORD_ONLY, None => true
  | _, _ => false
  end.

Definition has_required_kwonly (sig : Signature) : bool :=
  existsb required_kwonly sig.

Section Subscriptions.

Variable alive : ObjId -> bool.
Variable equal : ObjId -> ObjId -> bool.

(** The subscriptions of [slots] whose callback equals [normed]. *)
Definition subscriptions_of (normed : PyValue) (slots : list StoredSlot)
  : list StoredSlot :=
  filter (fun s => slot_eq alive equal (fst s) normed) slots.

(** The list without its first subscription that equals [normed]. *)
Fixpoint remove_first (normed : PyValue) (slots : list StoredSlot)
  : list StoredSlot :=
  match slots with
  | [] => []
  | (s, m) :: rest =>
      if slot_eq alive equal s normed then rest
      else (s, m) :: remove_first normed rest
  end.

End Subscriptions.

(** A stored callback that emission would find dead: a weak reference whose
    referent is gone, or whose referent has lost the method. *)
Definition is_dead {U} (w : World U) (slot : PyValue) : bool :=
  match slot with
  | RefNamePair ref meth =>
      match deref w ref with
      | None => true
      | Some obj =>
          match getattr w obj meth with None => true | Some _ => false end
      end
  | _ => false
  end.

(** What emission calls for a stored callback that is not dead. *)
Definition resolve {U} (w : World U) (slot : PyValue) : PyValue :=
  match slot with
  | RefNamePair ref meth =>
      match getattr w ref meth with Some cb => cb | None => slot end
  | _ => slot
  end.

(** A stored callback of a shape that [_normalize_slot] returns for what
    [connect] accepts: not a tuple whose first component is a plain object. *)
Definition well_formed_slot (slot : PyValue) : bool :=
  match slot with
  | ObjNamePair _ _ | SlottedPair _ _ => false
  | _ => true
  end.

(** [l] is in order of decreasing [key]. *)
Fixpoint decreasing {A} (key : A -> Z) (l : list A) : Prop :=
  match l with
  | [] => True
  | x :: rest => (forall y, In y rest -> key y <= key x) /\ decreasing key rest
  end.

(** The subscriptions that emission would call, and the callbacks it would
    queue for removal. *)
Definition live_slots {U} (w : World U) (slots : list StoredSlot) : list StoredSlot :=
  filter (fun s => negb (is_dead w (fst s))) slots.

Definition dead_slots {U} (w : World U) (slots : list StoredSlot) : list PyValue :=
  map fst (filter (fun s => is_dead w (fst s)) slots).

(** The call that emission makes for the subscription [s]:
    [cb( *args[:max_args])]. *)
Definition invoke_slot {U} (invoke : PyValue -> list PyValue -> M (World U) unit)
    (w : World U) (args : list PyValue) (s : StoredSlot) : M (World U) unit :=
  call invoke (resolve w (fst s)) (slice_to args (snd s)).

(** No live subscription equals a dead one, so that [disconnect] of a dead
    callback finds a dead subscription.  (A reference whose referent is gone
    equals only itself; one whose referent has lost the method may equal the
    reference to another, equal receiver.) *)
Definition dead_apart {U} (equal : ObjId -> ObjId -> bool) (w : World U)
    (slots : list StoredSlot) : Prop :=
  forall s d, In s slots -> In d slots ->
    is_dead w (fst s) = false -> is_dead w (fst d) = true ->
    slot_eq (alive w) equal (fst s) (fst d) = false.

(** [w'] has the subscription list of [self] and the objects of [w]. *)
Definition frame {U} (self : nat) (w w' : World U) : Prop :=
  _slots (instances w' self) = _slots (instances w self) /\
  (forall o, alive w' o = alive w o) /\
  (forall o n, attrs w' o n = attrs w o n).

(** Callbacks that leave the subscription list of [self] and the receivers
    as they found them. *)
Definition stable {U} (self : nat)
    (invoke : PyValue -> list PyValue -> M (World U) unit) : Prop :=
  forall cb args w, frame self w (snd (invoke cb args w)).

(** Callbacks that leave [Signal._current_emitter] as they found it. *)
Definition keeps_emitter {U}
    (invoke : PyValue -> list PyValue -> M (World U) unit) : Prop :=
  forall cb args w,
    _current_emitter (snd (invoke cb args w)) = _current_emitter w.

(** Callbacks that leave the owner of [self] as they found it. *)
Definition keeps_owner {U} (self : nat)
    (invoke : PyValue -> list PyValue -> M (World U) unit) : Prop :=
  forall cb args w,
    instance (instances (snd (invoke cb args w)) self) = instance (instances w self).

(** Callbacks that do nothing. *)
Definition idle {U}
    (invoke : PyValue -> list PyValue -> M (World U) unit) : Prop :=
  forall cb args w, invoke cb args w = (Ret tt, w).

(** Callbacks that return normally. *)
Definition returns {U}
    (invoke : PyValue -> list PyValue -> M (World U) unit) : Prop :=
  forall cb args w, fst (invoke cb args w) = Ret tt.

(** Writing an observation in the journal. *)
Definition note (o : Observation) (w : World Journal) : World Journal :=
  mkWorld (instances w) (_current_emitter w) (alive w) (attrs w) (user w ++ [o]).

(** A subscriber that looks before it runs: it writes in the journal what
    [Signal.current_emitter()] and [Signal.sender()] return and what it was
    called with, and then does what [invoke] does. *)
Definition observing (invoke : PyValue -> list PyValue -> M (World Journal) unit)
    (cb : PyValue) (args : list PyValue) : M (World Journal) unit :=
  modify (record args) ;;; invoke cb args.

(** A subscriber that does not look: before it runs, it writes in the
    journal that the emitter is [emitter] and the sender [owner]. *)
Definition told (emitter : nat) (owner : option ObjId)
    (invoke : PyValue -> list PyValue -> M (World Journal) unit)
    (cb : PyValue) (args : list PyValue) : M (World Journal) unit :=
  modify (note (mkObservation (Some emitter) owner args)) ;;; invoke cb args.

(** A callback that does nothing but note that it was called, and with
    what. *)
Definition CallLog := list (PyValue * list PyValue).

Definition logging (cb : PyValue) (args : list PyValue) : M (World CallLog) unit :=
  modify (fun w =>
    mkWorld (instances w) (_current_emitter w) (alive w) (attrs w)
            (user w ++ [(cb, args)])).

(* ================================================================= *)
(** ** A small program to run the dispatcher on *)

(** A class hierarchy without inheritance, and no postponed annotations. *)
Definition same_class (a b : PyClass) : bool := Nat.eqb a b.
Definition no_hints (f : PyValue) : Res (list (string * Annotation)) := Ret [].

(** Objects that are all alive, with the default [__eq__], which is
    identity; and objects whose [__eq__] always answers [True]. *)
Definition all_alive (o : ObjId) : bool := true.
Definition same_object (a b : ObjId) : bool := Nat.eqb a b.
Definition all_equal (a b : ObjId) : bool := true.

Definition int : PyClass := 1%nat.

(** [def f(): ...], [def g(x): ...], [def h(a, b, c): ...] and
    [def star( *args): ...] *)
Definition positional (n : string) : PyParameter :=
  mkParameter n POSITIONAL_OR_KEYWORD None (Cls _empty).
Definition f : PyValue := Function 1%nat (Some []).
Definition g : PyValue := Function 2%nat (Some [positional "x"]).
Definition h : PyValue :=
  Function 3%nat (Some [positional "a"; positional "b"; positional "c"]).
Definition star : PyValue :=
  Function 4%nat (Some [mkParameter "args" VAR_POSITIONAL None (Cls _empty)]).

(** The bound method [obj7.on_change], of signature [(value)]; the same
    method of object 8; and the one of object 9, an instance of a class with
    [__slots__] that cannot be weakly referenced. *)
Definition on_change : PyValue :=
  BoundMethod 7%nat "on_change" (Some [positional "value"]).
Definition on_change_8 : PyValue :=
  BoundMethod 8%nat "on_change" (Some [positional "value"]).
Definition slotted_on_change : PyValue :=
  SlottedMethod 9%nat "on_change" (Some [positional "value"]).

(** The dispatcher of a channel declared with [(int, int)]. *)
Definition two_int_channel : SignalInstance :=
  SignalInstance__init__ [_build_signature [Cls int; Cls int]] None None.

(** A dispatcher of a channel declared with [(int,)], and the same with
    subscriptions. *)
Definition int_channel : SignalInstance :=
  SignalInstance__init__ [_build_signature [Cls int]] None None.

Definition with_slots (slots : list StoredSlot) (blocked : bool) : SignalInstance :=
  mkSignalInstance [_build_signature [Cls int]] None None slots blocked.

(** A world with the single dispatcher [si] (whatever its name), in which
    the objects [living] are alive and object 7 has its method
    [on_change]. *)
Definition world_of {U} (si : SignalInstance) (emitter : option nat)
    (living : list ObjId) (u : U) : World U :=
  mkWorld (fun _ => si) emitter
          (fun o => existsb (Nat.eqb o) living)
          (fun o n => if Nat.eqb o 7%nat && String.eqb n "on_change"
                      then Some on_change else None)
          u.

(** Two dispatchers, 1 and 2, owned by the objects 11 and 12: on 1, the
    callback [Function 1], which looks, emits on 2 and looks again; on 2,
    the callback [Function 2], which looks and raises. *)
Definition two_dispatchers : World Journal :=
  mkWorld (fun i =>
             if Nat.eqb i 1%nat
             then mkSignalInstance [[]] (Some 11%nat) None [(Function 1%nat (Some []), 0)] false
             else mkSignalInstance [[]] (Some 12%nat) None [(Function 2%nat (Some []), 0)] false)
          None (fun _ => true) (fun _ _ => None) [].

Definition two_dispatchers_code (cb : PyValue) : list Stmt :=
  match cb with
  | Function 1%nat _ => [Observe; TryEmitOn 2%nat []; Observe]
  | Function 2%nat _ => [Observe; RaiseExn (Exception (Text "boom"))]
  | _ => []
  end.

(** The dispatcher of the [(int,)] channel with [f], [g] and [star]
    connected in this order, blocked or not, and nothing called so far. *)
Definition three_subscribers (blocked : bool) : World CallLog :=
  world_of (with_slots [(f, 0); (g, 1); (star, 10000000000)] blocked) None [] [].

(** The same channel with [f], the bound method [obj7.on_change] and [g]
    connected in this order; object 7 is among the [living] or not. *)
Definition with_receiver (living : list ObjId) (blocked : bool) : World CallLog :=
  world_of (with_slots [(f, 0); (RefNamePair 7%nat "on_change", 1); (g, 1)] blocked)
           None living [].

(** The same channel with the methods of objects 7 and 8 connected in this
    order, both objects alive; object 8 has no method [on_change]. *)
Definition equal_receivers : World CallLog :=
  world_of (with_slots [(RefNamePair 7%nat "on_change", 1);
                        (RefNamePair 8%nat "on_change", 1)] false)
           None [7%nat; 8%nat] [].

(** A callback that notes its call and disconnects itself from dispatcher 0:
    it alters the list that the emission is iterating. *)
Definition disconnecting_itself (cb : PyValue) (args : list PyValue)
  : M (World CallLog) unit :=
  logging cb args ;;;
  (fun w => on_instance 0 (disconnect (alive w) Nat.eqb (Some cb) true) w).

(** A callback that does nothing. *)
Definition nothing {U} (cb : PyValue) (args : list PyValue) : M (World U) unit :=
  ret tt.

(** A callback that raises. *)
Definition failing {U} (cb : PyValue) (args : list PyValue) : M (World U) unit :=
  raise (Exception (Text "boom")).

(* ================================================================= *)
(** ** Signal: the descriptor *)

(** One positional argument of [Signal(...)]: a type, a list or tuple of
    types, or an [inspect.Signature]. *)
Inductive TypeSpec :=
| AType (t : Annotation)
| ASequence (ts : list Annotation)
| ASignature (s : Signature).

(** [isinstance(t, (list, tuple, Signature))] *)
Definition is_sequence_or_signature (t : TypeSpec) : bool :=
  match t with
  | AType _ => false
  | _ => true
  end.

(** The argument as the annotation of a parameter: a list, tuple or
    Signature standing where a type is expected is some object that is not a
    class. *)
Definition as_annotation (t : TypeSpec) : Annotation :=
  match t with
  | AType a => a
  | _ => OtherAnn 0
  end.

(** The exception of [Signal.__init__]. *)
Definition not_a_signature : PyExn :=
  TypeError (Text "each signature in a multi-signature sequence must be experessed as a Signature, list, or tuple").

(** The loop of [Signal.__init__] over the signatures of a multi-signature
    declaration. *)
Fixpoint build_signatures (types : list TypeSpec) (_signatures : list Signature)
  : Res (list Signature) :=
  match types with
  | [] => Ret _signatures
  | ASignature t :: rest => build_signatures rest (_signatures ++ [t])
  | ASequence t :: rest =>
      build_signatures rest (_signatures ++ [_build_signature t])
  | AType _ :: _ => Exc not_a_signature
  end.

(** The signature that one argument of a multi-signature declaration
    declares: the [Signature] itself, or the one built from the list or
    tuple of types. *)
Definition declares (t : TypeSpec) (sig : Signature) : Prop :=
  match t with
  | ASignature s => sig = s
  | ASequence ts => sig = _build_signature ts
  | AType _ => False
  end.

(** The descriptor.  [_signal_instances] is a dict whose only key is ever
    the descriptor itself: [None] while it is empty, otherwise the
    [WeakKeyDictionary] from owning instances to their dispatchers, given
    by its items in insertion order.  The owners are taken to be alive (the
    weak mapping drops the entry of an owner that is destroyed), hashable
    and weakly referenceable, with the default [__eq__] and [__hash__]. *)
Record Signal := mkSignal {
  Signal_signatures : list Signature;
  Signal_name : option string;
  _signal_instances : option (list (ObjId * SignalInstance))
}.

(** [Signal( *types, name=name)]: [name] is accepted and not stored
    ([self._name = None]). *)
Definition Signal__init__ (types : list TypeSpec) (name : option string)
  : Res Signal :=
  match types with
  | [] => Ret (mkSignal [[]] None None)
  | t0 :: _ =>
      if negb (is_sequence_or_signature t0)
      then Ret (mkSignal [_build_signature (map as_annotation types)] None None)
      else
        _signatures <~ build_signatures types [] ;;
        Ret (mkSignal _signatures None None)
  end.


(** [d.get(k)] and [d[k] = v] on a mapping keyed by objects. *)
Fixpoint mapping_get {V} (d : list (ObjId * V)) (k : ObjId) : option V :=
  match d with
  | [] => None
  | (k', v) :: rest => if Nat.eqb k' k then Some v else mapping_get rest k
  end.

Fixpoint mapping_set {V} (d : list (ObjId * V)) (k : ObjId) (v : V)
  : list (ObjId * V) :=
  match d with
  | [] => [(k, v)]
  | (k', v') :: rest =>
      if Nat.eqb k' k then (k, v) :: rest else (k', v') :: mapping_set rest k v
  end.

(** [d.setdefault(k, v)]: the value under [k], stored as [v] if there was
    none, and the mapping afterwards. *)
Definition setdefault {V} (d : list (ObjId * V)) (k : ObjId) (v : V)
  : V * list (ObjId * V) :=
  match mapping_get d k with
  | Some v' => (v', d)
  | None => (v, mapping_set d k v)
  end.

(** [Signal.__get__(instance, owner)] on an instance of the owner: the
    dispatcher of [instance], made on the first access, and the descriptor
    afterwards. *)
Definition Signal__get__instance (self : Signal) (instance : ObjId)
  : SignalInstance * Signal :=
  let d := match _signal_instances self with
           | None => []
           | Some d => d
           end in
  let (si, d') :=
    setdefault d instance
      (SignalInstance__init__ (Signal_signatures self) (Some instance)
                              (Signal_name self)) in
  (si, mkSignal (Signal_signatures self) (Signal_name self) (Some d')).

(** [Signal.__get__(instance, owner)]: the descriptor itself when accessed
    on the owner class ([instance is None]). *)
Definition Signal__get__ (self : Signal) (instance : option ObjId)
  : (Signal + SignalInstance) * Signal :=
  match instance with
  | None => (inl self, self)
  | Some instance =>
      let (si, self') := Signal__get__instance self instance in
      (inr si, self')
  end.

(** What [connect] and [disconnect] keep of every stored subscription: the
    callback is in normal form (a weak reference and a name, or a value that
    is no bound method and no tuple of an object and a name), and the
    max-arity is not negative. *)
Definition stored_ok (s : StoredSlot) : bool :=
  match _normalize_slot (fst s) with
  | Ret normed => py_eq normed (fst s)
  | _ => false
  end && (0 <=? snd s).

(* ================================================================= *)
(** * Properties *)

(** ** Values, lists, sorting *)

Lemma py_eq_true (a b : PyValue) : py_eq a b = true <-> a = b.
Proof.
  unfold py_eq. destruct (PyValue_eq_dec a b); split; congruence.
Qed.

Lemma py_eq_false (a b : PyValue) : py_eq a b = false <-> a <> b.
Proof.
  unfold py_eq. destruct (PyValue_eq_dec a b); split; congruence.
Qed.

Lemma py_eq_refl (a : PyValue) : py_eq a a = true.
Proof. now apply py_eq_true. Qed.

Lemma len_nonneg {A} (l : list A) : 0 <= len l.
Proof. unfold len. lia. Qed.

Lemma len_app {A} (l l' : list A) : len (l ++ l') = len l + len l'.
Proof. unfold len. rewrite length_app. lia. Qed.

Lemma len_cons {A} (x : A) (l : list A) : len (x :: l) = 1 + len l.
Proof. unfold len. simpl List.length. lia. Qed.

(** [seq[:stop]] has at most [stop] elements when [stop] is not negative. *)
Lemma slice_to_len {A} (seq : list A) (stop : Z) :
  0 <= stop -> len (slice_to seq stop) = Z.min stop (len seq).
Proof.
  intros Hstop. unfold slice_to.
  destruct (stop <? 0) eqn:E; [apply Z.ltb_lt in E; lia|].
  unfold len. rewrite length_firstn.
  pose proof (len_nonneg seq) as Hl. unfold len in *. lia.
Qed.

Lemma slice_to_all {A} (seq : list A) (stop : Z) :
  len seq <= stop -> slice_to seq stop = seq.
Proof.
  intros H. pose proof (len_nonneg seq) as Hl. unfold slice_to.
  destruct (stop <? 0) eqn:E; [apply Z.ltb_lt in E; lia|].
  apply firstn_all2. unfold len in *. lia.
Qed.

Lemma insert_desc_perm {A} (key : A -> Z) (x : A) (l : list A) :
  forall y, In y (insert_desc key x l) <-> y = x \/ In y l.
Proof.
  induction l as [|z l IH]; intros y; simpl.
  - intuition.
  - destruct (key z <=? key x); simpl; [intuition|].
    rewrite IH. intuition.
Qed.

(** The sorted list has the elements of the given one. *)
Lemma sorted_reverse_In {A} (xs : list A) (key : A -> Z) :
  forall y, In y (sorted_reverse xs key) <-> In y xs.
Proof.
  unfold sorted_reverse.
  induction xs as [|x xs IH]; intros y; simpl; [tauto|].
  rewrite insert_desc_perm, IH. intuition.
Qed.

Lemma insert_desc_decreasing {A} (key : A -> Z) (x : A) (l : list A) :
  decreasing key l -> decreasing key (insert_desc key x l).
Proof.
  induction l as [|z l IH]; simpl; intros H.
  - split; [intros y []|exact I].
  - destruct H as [Hz Hl].
    destruct (key z <=? key x) eqn:E.
    + apply Z.leb_le in E. simpl. repeat split; auto.
      intros y [<-|Hy]; [assumption|]. specialize (Hz y Hy). lia.
    + apply Z.leb_gt in E. simpl. split; [|auto].
      intros y Hy. apply insert_desc_perm in Hy as [->|Hy]; [lia|auto].
Qed.

Lemma sorted_reverse_decreasing {A} (xs : list A) (key : A -> Z) :
  decreasing key (sorted_reverse xs key).
Proof.
  unfold sorted_reverse.
  induction xs as [|x xs IH]; simpl; [exact I|].
  now apply insert_desc_decreasing.
Qed.

Lemma decreasing_split {A} (key : A -> Z) (before after : list A) (x : A) :
  decreasing key (before ++ x :: after) ->
  (forall y, In y before -> key x <= key y) /\
  (forall y, In y after -> key y <= key x).
Proof.
  induction before as [|b before IH]; simpl; intros [H1 H2].
  - split; [intros y []|assumption].
  - destruct (IH H2) as [Hb Ha]. split; [|assumption].
    intros y [<-|Hy]; [|auto].
    apply H1. apply in_or_app. right. now left.
Qed.

(* ================================================================= *)
(** ** Signature inspection *)

Lemma posarg_range_loop_spec (params : list PyParameter) :
  forall required optional,
    posarg_range_loop true params required optional =
    if has_required_kwonly params
    then Exc (ValueError RequiredKeywordOnly)
    else Ret (required + required_posargs params,
              required + required_posargs params
              + (optional + optional_posargs params)).
Proof.
  induction params as [|p rest IH]; intros required optional.
  - simpl. do 2 f_equal; lia.
  - unfold has_required_kwonly in *.
    cbn [posarg_range_loop existsb required_posargs optional_posargs].
    unfold required_kwonly at 1, is_positional, has_default.
    destruct (kind p), (default p); cbn [orb andb negb];
      try reflexivity; rewrite IH;
      destruct (existsb required_kwonly rest); try reflexivity;
      do 2 f_equal; lia.
Qed.

(** [_acceptable_posarg_range] computes the counts the specification names,
    and fails exactly on a required keyword-only parameter. *)
Lemma acceptable_posarg_range_spec (sig : Signature) :
  _acceptable_posarg_range sig true =
  if has_required_kwonly sig
  then Exc (ValueError RequiredKeywordOnly)
  else Ret (required_posargs sig, required_posargs sig + optional_posargs sig).
Proof.
  unfold _acceptable_posarg_range. rewrite posarg_range_loop_spec.
  destruct (has_required_kwonly sig); [reflexivity|].
  do 2 f_equal; lia.
Qed.

Lemma required_posargs_nonneg (sig : Signature) : 0 <= required_posargs sig.
Proof.
  induction sig as [|p rest IH]; simpl; [lia|].
  destruct (is_positional p && negb (has_default p)); lia.
Qed.

Lemma optional_posargs_nonneg (sig : Signature) : 0 <= optional_posargs sig.
Proof.
  induction sig as [|p rest IH]; simpl; [lia|].
  destruct (is_positional p && has_default p); [lia|].
  destruct (kind p); lia.
Qed.

Lemma acceptable_posarg_range_bounds (sig : Signature) (minargs maxargs : Z) :
  _acceptable_posarg_range sig true = Ret (minargs, maxargs) ->
  0 <= minargs <= maxargs.
Proof.
  rewrite acceptable_posarg_range_spec.
  destruct (has_required_kwonly sig); [discriminate|].
  intros [= <- <-].
  pose proof (required_posargs_nonneg sig).
  pose proof (optional_posargs_nonneg sig). lia.
Qed.

Lemma signature_callable (slot : PyValue) (slot_sig : Signature) :
  signature slot = Ret slot_sig -> callable slot = true.
Proof. destruct slot; simpl; congruence. Qed.

(* ================================================================= *)
(** ** Normal forms *)

Lemma normalize_slot_terminates (slot : PyValue) : _normalize_slot slot <> OutOfFuel.
Proof. destruct slot; discriminate. Qed.

(** A normal form is its own normal form. *)
Lemma normalize_slot_normal (slot normed : PyValue) :
  _normalize_slot slot = Ret normed -> _normalize_slot normed = Ret normed.
Proof. destruct slot; simpl; intros [= <-]; reflexivity. Qed.

(** Only a bound method or a tuple whose object cannot be weakly referenced
    fails to normalize, and then with the [TypeError] of [weakref.ref]. *)
Lemma normalize_slot_raises (slot : PyValue) (e : PyExn) :
  _normalize_slot slot = Exc e ->
  exists obj, e = TypeError (CannotWeakref obj) /\
    ((exists meth sig, slot = SlottedMethod obj meth sig) \/
     (exists meth, slot = SlottedPair obj meth)).
Proof.
  destruct slot; simpl; intros [= <-]; eexists; (split; [reflexivity|]); eauto.
Qed.

(* ================================================================= *)
(** ** The subscription list *)

Lemma set_slots_same (self : SignalInstance) : set_slots self (_slots self) = self.
Proof. now destruct self. Qed.

Lemma cut_middle {A} (before after : list A) (x : A) :
  firstn (List.length before) (before ++ x :: after)
  ++ skipn (S (List.length before)) (before ++ x :: after) = before ++ after.
Proof.
  induction before as [|b before IH]; simpl; [reflexivity|].
  f_equal. exact IH.
Qed.

Lemma pop_middle {A} (before after : list A) (x : A) :
  pop (before ++ x :: after) (len before) = Ret (before ++ after).
Proof.
  unfold pop. rewrite len_app, len_cons.
  pose proof (len_nonneg before). pose proof (len_nonneg after).
  replace ((0 <=? len before) && (len before <? len before + (1 + len after)))
    with true by (symmetry; apply andb_true_iff; split;
                  [apply Z.leb_le|apply Z.ltb_lt]; lia).
  unfold len. rewrite Nat2Z.id. f_equal. apply cut_middle.
Qed.

(** The first element of a list in which nothing equals [normed] does not
    equal it. *)
Ltac first_differs Hb s m :=
  let E := fresh in
  pose proof (Hb (s, m) (or_introl eq_refl)) as E; cbn [fst] in E;
  rewrite E; clear E.

Section SlotList.

Variable alive : ObjId -> bool.
Variable equal : ObjId -> ObjId -> bool.

(** A value equals itself, whatever the objects' [__eq__] says. *)
Lemma slot_eq_refl (a : PyValue) : slot_eq alive equal a a = true.
Proof.
  destruct a; simpl; unfold ref_eq;
    rewrite ?Nat.eqb_refl, ?String.eqb_refl; try reflexivity; apply py_eq_refl.
Qed.

Lemma slot_index_from_bounds (normed : PyValue) (slots : list StoredSlot) :
  forall i, slot_index_from alive equal i normed slots = -1 \/
            i <= slot_index_from alive equal i normed slots < i + len slots.
Proof.
  induction slots as [|[s m] rest IH]; intros i; simpl; [now left|].
  rewrite len_cons. pose proof (len_nonneg rest).
  destruct (slot_eq alive equal s normed); [right; lia|].
  destruct (IH (i + 1)) as [->|H']; [now left|right; lia].
Qed.

(** When the search fails, no stored callback equals [normed]. *)
Lemma slot_index_from_missing (normed : PyValue) (slots : list StoredSlot) :
  forall i, 0 <= i ->
    slot_index_from alive equal i normed slots < 0 ->
    forall s, In s slots -> slot_eq alive equal (fst s) normed = false.
Proof.
  induction slots as [|[s m] rest IH]; intros i Hi Hlt x Hx; [destruct Hx|].
  simpl in Hlt. destruct (slot_eq alive equal s normed) eqn:E; [lia|].
  destruct Hx as [<-|Hx].
  - exact E.
  - apply (IH (i + 1)); auto; lia.
Qed.

(** When it succeeds, it stops at the first stored callback equal to
    [normed]. *)
Lemma slot_index_from_found (normed : PyValue) (slots : list StoredSlot) :
  forall i, 0 <= i ->
    0 <= slot_index_from alive equal i normed slots ->
    exists before s m after,
      slots = before ++ (s, m) :: after /\
      slot_eq alive equal s normed = true /\
      (forall x, In x before -> slot_eq alive equal (fst x) normed = false) /\
      slot_index_from alive equal i normed slots = i + len before.
Proof.
  induction slots as [|[s m] rest IH]; intros i Hi Hge; simpl in *; [lia|].
  destruct (slot_eq alive equal s normed) eqn:E.
  - exists [], s, m, rest.
    split; [reflexivity|]. split; [exact E|].
    split; [intros ? []|unfold len; simpl; lia].
  - destruct (IH (i + 1)) as (before & s' & m' & after & -> & Hs & Hb & Hidx);
      [lia|lia|].
    exists ((s, m) :: before), s', m', after.
    split; [reflexivity|]. split; [exact Hs|]. split.
    + intros x [<-|Hx]; [exact E|auto].
    + rewrite Hidx, len_cons. lia.
Qed.

Lemma slot_index_from_skip (normed : PyValue) (before after : list StoredSlot) :
  (forall x, In x before -> slot_eq alive equal (fst x) normed = false) ->
  forall i, slot_index_from alive equal i normed (before ++ after) =
            slot_index_from alive equal (i + len before) normed after.
Proof.
  induction before as [|[s m] before IH]; intros Hb i; simpl.
  - f_equal. unfold len. simpl. lia.
  - first_differs Hb s m.
    rewrite IH; [|intros x Hx; apply Hb; now right].
    f_equal. rewrite len_cons. lia.
Qed.

(** The index of a callback that equals no stored one. *)
Lemma slot_index_from_none (normed : PyValue) (slots : list StoredSlot) :
  (forall x, In x slots -> slot_eq alive equal (fst x) normed = false) ->
  forall i, slot_index_from alive equal i normed slots = -1.
Proof.
  induction slots as [|[s m] rest IH]; intros Hb i; simpl; [reflexivity|].
  first_differs Hb s m.
  apply IH. intros x Hx. apply Hb. now right.
Qed.

(** Membership, in terms of the list. *)
Lemma contains_normalized (self : SignalInstance) (slot normed : PyValue) :
  _normalize_slot slot = Ret normed ->
  contains alive equal self slot
  = Ret (slot_index_from alive equal 0 normed (_slots self) >=? 0).
Proof. intros H. unfold contains, _slot_index. now rewrite H. Qed.

Lemma contains_raises (self : SignalInstance) (slot : PyValue) (e : PyExn) :
  _normalize_slot slot = Exc e -> contains alive equal self slot = Exc e.
Proof. intros H. unfold contains, _slot_index. now rewrite H. Qed.

Lemma contains_ret (self : SignalInstance) (slot : PyValue) (b : bool) :
  contains alive equal self slot = Ret b ->
  exists normed,
    _normalize_slot slot = Ret normed /\
    (slot_index_from alive equal 0 normed (_slots self) >=? 0) = b.
Proof.
  unfold contains, _slot_index.
  destruct (_normalize_slot slot) as [normed| |]; simpl; try discriminate.
  intros [= <-]. eauto.
Qed.

Lemma contains_true (self : SignalInstance) (slot : PyValue) :
  contains alive equal self slot = Ret true <->
  exists normed, _normalize_slot slot = Ret normed /\
    exists s, In s (_slots self) /\ slot_eq alive equal (fst s) normed = true.
Proof.
  split.
  - intros H. apply contains_ret in H as (normed & Hn & H).
    exists normed. split; [exact Hn|].
    apply Z.geb_le in H.
    destruct (slot_index_from_found _ _ 0 (Z.le_refl 0) H)
      as (before & s & m & after & Heq & Hs & _ & _).
    exists (s, m). split; [|exact Hs].
    rewrite Heq. apply in_or_app. right. now left.
  - intros (normed & Hn & s & Hin & Hs).
    rewrite (contains_normalized _ _ _ Hn). f_equal.
    destruct (Z.geb_spec (slot_index_from alive equal 0 normed (_slots self)) 0)
      as [|Hlt]; [reflexivity|].
    pose proof (slot_index_from_missing _ _ 0 (Z.le_refl 0) Hlt s Hin).
    congruence.
Qed.

Lemma contains_false (self : SignalInstance) (slot : PyValue) :
  contains alive equal self slot = Ret false <->
  exists normed, _normalize_slot slot = Ret normed /\
    forall s, In s (_slots self) -> slot_eq alive equal (fst s) normed = false.
Proof.
  split.
  - intros H. apply contains_ret in H as (normed & Hn & H).
    exists normed. split; [exact Hn|].
    apply slot_index_from_missing with (i := 0); [lia|].
    destruct (Z.geb_spec (slot_index_from alive equal 0 normed (_slots self)) 0);
      [discriminate|lia].
  - intros (normed & Hn & H).
    rewrite (contains_normalized _ _ _ Hn).
    now rewrite slot_index_from_none.
Qed.

(* ================================================================= *)
(** ** disconnect *)

(** Disconnecting a connected callback removes the first subscription that
    equals it. *)
Lemma disconnect_connected (self : SignalInstance) (cb : PyValue) :
  contains alive equal self cb = Ret true ->
  exists normed before s m after,
    _normalize_slot cb = Ret normed /\
    _slots self = before ++ (s, m) :: after /\
    slot_eq alive equal s normed = true /\
    (forall x, In x before -> slot_eq alive equal (fst x) normed = false) /\
    forall missing_ok,
      disconnect alive equal (Some cb) missing_ok self
      = (Ret tt, set_slots self (before ++ after)).
Proof.
  intros Hin. apply contains_ret in Hin as (normed & Hn & Hin).
  pose proof Hin as Hge. apply Z.geb_le in Hge.
  destruct (slot_index_from_found _ _ 0 (Z.le_refl 0) Hge)
    as (before & s & m & after & Heq & Hs & Hb & Hidx).
  exists normed, before, s, m, after.
  split; [exact Hn|]. split; [exact Heq|]. split; [exact Hs|].
  split; [exact Hb|].
  intros missing_ok.
  unfold disconnect, bind, get, lift_res, modify, _slot_index.
  rewrite Hn. cbn [res_bind]. rewrite Hin, Hidx, Heq. simpl.
  rewrite pop_middle. reflexivity.
Qed.

(** Disconnecting a callback that is not connected changes nothing; it is an
    error only when [missing_ok] is false. *)
Lemma disconnect_missing (self : SignalInstance) (cb : PyValue) :
  contains alive equal self cb = Ret false ->
  disconnect alive equal (Some cb) true self = (Ret tt, self) /\
  disconnect alive equal (Some cb) false self
  = (Exc (ValueError (NotConnected cb)), self).
Proof.
  intros Hin. apply contains_ret in Hin as (normed & Hn & Hin).
  unfold disconnect, bind, get, raise, ret, lift_res, _slot_index.
  rewrite Hn. cbn [res_bind]. rewrite Hin. simpl. now split.
Qed.

(** A callback that cannot be normalized cannot be disconnected. *)
Lemma disconnect_raises (self : SignalInstance) (cb : PyValue) (e : PyExn)
    (missing_ok : bool) :
  _normalize_slot cb = Exc e ->
  disconnect alive equal (Some cb) missing_ok self = (Exc e, self).
Proof.
  intros Hn. unfold disconnect, bind, get, lift_res, _slot_index.
  now rewrite Hn.
Qed.

(** In every case [disconnect(cb)] with [missing_ok] leaves the list without
    its first subscription that equals [cb]. *)
Lemma remove_first_split (normed s : PyValue) (before after : list StoredSlot)
    (m : Z) :
  (forall x, In x before -> slot_eq alive equal (fst x) normed = false) ->
  slot_eq alive equal s normed = true ->
  remove_first alive equal normed (before ++ (s, m) :: after) = before ++ after.
Proof.
  induction before as [|[x k] before IH]; intros Hb Hs; simpl.
  - now rewrite Hs.
  - first_differs Hb x k.
    f_equal. apply IH; [|exact Hs]. intros y Hy. apply Hb. now right.
Qed.

Lemma remove_first_missing (normed : PyValue) (slots : list StoredSlot) :
  (forall x, In x slots -> slot_eq alive equal (fst x) normed = false) ->
  remove_first alive equal normed slots = slots.
Proof.
  induction slots as [|[s k] slots IH]; intros Hb; simpl; [reflexivity|].
  first_differs Hb s k.
  f_equal. apply IH. intros x Hx. apply Hb. now right.
Qed.

Lemma disconnect_remove_first (self : SignalInstance) (cb normed : PyValue) :
  _normalize_slot cb = Ret normed ->
  disconnect alive equal (Some cb) true self
  = (Ret tt,
     set_slots self (remove_first alive equal normed (_slots self))).
Proof.
  intros Hn.
  destruct (slot_index_from alive equal 0 normed (_slots self) >=? 0) eqn:E.
  - assert (Hc : contains alive equal self cb = Ret true)
      by (rewrite (contains_normalized _ _ _ Hn); now rewrite E).
    destruct (disconnect_connected self cb Hc)
      as (normed' & before & s & m & after & Hn' & Heq & Hs & Hb & Hd).
    assert (normed' = normed) by congruence. subst normed'.
    rewrite Hd, Heq, remove_first_split by assumption. reflexivity.
  - assert (Hc : contains alive equal self cb = Ret false)
      by (rewrite (contains_normalized _ _ _ Hn); now rewrite E).
    destruct (disconnect_missing self cb Hc) as [-> _].
    apply contains_false in Hc as (normed' & Hn' & Hc).
    assert (normed' = normed) by congruence. subst normed'.
    rewrite remove_first_missing by exact Hc.
    now rewrite set_slots_same.
Qed.

End SlotList.

(** Equality looks at the objects that are alive, not at how this is
    told. *)
Lemma slot_eq_ext (alive alive' : ObjId -> bool) (equal : ObjId -> ObjId -> bool)
    (a b : PyValue) :
  (forall o, alive' o = alive o) ->
  slot_eq alive' equal a b = slot_eq alive equal a b.
Proof.
  intros H. destruct a, b; try reflexivity.
  simpl. unfold ref_eq. now rewrite !H.
Qed.

Lemma remove_first_ext (alive alive' : ObjId -> bool)
    (equal : ObjId -> ObjId -> bool) (normed : PyValue) (slots : list StoredSlot) :
  (forall o, alive' o = alive o) ->
  remove_first alive' equal normed slots = remove_first alive equal normed slots.
Proof.
  intros H. induction slots as [|[s m] rest IH]; [reflexivity|].
  simpl. rewrite (slot_eq_ext _ _ _ _ _ H). now rewrite IH.
Qed.

Lemma fold_remove_first_ext (alive alive' : ObjId -> bool)
    (equal : ObjId -> ObjId -> bool) (rem : list PyValue) :
  (forall o, alive' o = alive o) ->
  forall slots : list StoredSlot,
    fold_left (fun l x => remove_first alive' equal x l) rem slots
    = fold_left (fun l x => remove_first alive equal x l) rem slots.
Proof.
  intros H. induction rem as [|x rem IH]; intros slots; [reflexivity|].
  cbn [fold_left]. rewrite (remove_first_ext _ _ _ _ _ H). apply IH.
Qed.

(* ================================================================= *)
(** ** connect *)

Section Connect.

Variable issubclass : PyClass -> PyClass -> bool.
Variable get_type_hints : PyValue -> Res (list (string * Annotation)).
Variable alive : ObjId -> bool.
Variable equal : ObjId -> ObjId -> bool.


(** A signature is accepted only when it has at least as many parameters
    as the slot requires, and then the loop is left with the slot's own
    maximum. *)
Lemma try_spec_ret slot check_types slot_sig spec maxargs :
  try_spec issubclass get_type_hints slot check_types slot_sig spec = Ret maxargs ->
  exists minargs,
    _acceptable_posarg_range slot_sig true = Ret (minargs, maxargs) /\
    minargs <= len spec.
Proof.
  unfold try_spec.
  destruct (_acceptable_posarg_range slot_sig true) as [[mn mx]| |];
    simpl; try discriminate.
  destruct (mn >? len spec) eqn:E; [discriminate|].
  assert (mn <= len spec) by (rewrite Z.gtb_ltb in E; apply Z.ltb_ge in E; lia).
  destruct check_types.
  - destruct (_parameter_types_match _ _ _ _ _) as [[|]| |];
      simpl; try discriminate; intros [= <-]; eauto.
  - intros [= <-]; eauto.
Qed.

(** Without type checks, a signature is accepted as soon as it is long
    enough. *)
Lemma try_spec_unchecked slot slot_sig spec :
  try_spec issubclass get_type_hints slot false slot_sig spec =
  if has_required_kwonly slot_sig
  then Exc (ValueError RequiredKeywordOnly)
  else if required_posargs slot_sig >? len spec
  then Exc (ValueError (TooFewSpecParams (required_posargs slot_sig) (len spec)))
  else Ret (required_posargs slot_sig + optional_posargs slot_sig).
Proof.
  unfold try_spec. rewrite acceptable_posarg_range_spec.
  destruct (has_required_kwonly slot_sig); reflexivity.
Qed.

(** A slot that requires more than the signature provides is refused with
    a [ValueError], type checks or not. *)
Lemma try_spec_too_short slot check_types slot_sig spec :
  len spec < required_posargs slot_sig ->
  exists e, try_spec issubclass get_type_hints slot check_types slot_sig spec = Exc (ValueError e).
Proof.
  intros H. unfold try_spec. rewrite acceptable_posarg_range_spec.
  destruct (has_required_kwonly slot_sig); simpl; [eauto|].
  replace (required_posargs slot_sig >? len spec) with true
    by (symmetry; rewrite Z.gtb_ltb; apply Z.ltb_lt; lia).
  eauto.
Qed.

(** The loop returns at the first signature that is accepted, every
    signature before it having been refused with a [ValueError]. *)
Lemma match_signature_ret slot check_types slot_sig accepted specs :
  forall errors maxargs,
    match_signature issubclass get_type_hints slot check_types slot_sig accepted specs errors = Ret maxargs ->
    exists before spec after,
      specs = before ++ spec :: after /\
      try_spec issubclass get_type_hints slot check_types slot_sig spec = Ret maxargs /\
      forall s, In s before ->
        exists e, try_spec issubclass get_type_hints slot check_types slot_sig s = Exc (ValueError e).
Proof.
  induction specs as [|spec rest IH]; intros errors maxargs; simpl;
    [discriminate|].
  destruct (try_spec issubclass get_type_hints slot check_types slot_sig spec) as [mx|e|] eqn:E.
  - intros [= <-]. exists [], spec, rest. repeat split; [exact E|intros ? []].
  - destruct e as [m|m|m|m]; try discriminate.
    intros H. destruct (IH _ _ H) as (before & spec' & after & -> & Hs & Hb).
    exists (spec :: before), spec', after. repeat split; [exact Hs|].
    intros s [<-|Hin]; [eauto|auto].
  - discriminate.
Qed.

(** When every signature is refused with a [ValueError], the [else] branch
    raises the [ValueError] that lists the refusals. *)
Lemma match_signature_refused slot check_types slot_sig accepted specs :
  (forall s, In s specs ->
     exists e, try_spec issubclass get_type_hints slot check_types slot_sig s = Exc (ValueError e)) ->
  forall errors, exists errors',
    match_signature issubclass get_type_hints slot check_types slot_sig accepted specs errors
    = Exc (ValueError (CannotConnect slot errors' accepted)).
Proof.
  induction specs as [|spec rest IH]; intros Hall errors; simpl; [eauto|].
  destruct (Hall spec (or_introl eq_refl)) as [e ->].
  apply IH. intros s Hs. apply Hall. now right.
Qed.

(** What a call of [connect] that goes past the [unique] test does. *)
Lemma connect_unfold slot check_types unique self :
  callable slot = true ->
  unique_and_contains alive equal unique self slot = Ret false ->
  connect issubclass get_type_hints alive equal slot check_types unique self =
  match signature slot with
  | Ret slot_sig =>
      match match_signature issubclass get_type_hints slot check_types slot_sig (signatures self)
              (sorted_reverse (signatures self) len) [] with
      | Ret maxargs =>
          match _normalize_slot slot with
          | Ret normed =>
              (Ret tt, set_slots self (_slots self ++ [(normed, maxargs)]))
          | Exc e => (Exc e, self)
          | OutOfFuel => (OutOfFuel, self)
          end
      | Exc e => (Exc e, self)
      | OutOfFuel => (OutOfFuel, self)
      end
  | Exc e => (Exc e, self)
  | OutOfFuel => (OutOfFuel, self)
  end.
Proof.
  intros Hc Hu. unfold connect. rewrite Hc. cbn [negb].
  unfold bind, get, lift_res, modify. cbn beta iota. rewrite Hu.
  destruct (signature slot) as [slot_sig| |]; reflexivity.
Qed.

(** What it does when the [unique] test finds the slot. *)
Lemma connect_duplicate slot check_types unique self :
  callable slot = true ->
  unique_and_contains alive equal unique self slot = Ret true ->
  connect issubclass get_type_hints alive equal slot check_types unique self =
  if eq_str unique "raise" then (Exc (ValueError AlreadyConnected), self)
  else (Ret tt, self).
Proof.
  intros Hc Hu. unfold connect. rewrite Hc. cbn [negb].
  unfold bind, get, raise, ret, lift_res. cbn beta iota. rewrite Hu.
  destruct (eq_str unique "raise"); reflexivity.
Qed.

(** What it does when the [unique] test itself raises. *)
Lemma connect_test_raises slot check_types unique self e :
  callable slot = true ->
  unique_and_contains alive equal unique self slot = Exc e ->
  connect issubclass get_type_hints alive equal slot check_types unique self
  = (Exc e, self).
Proof.
  intros Hc Hu. unfold connect. rewrite Hc. cbn [negb].
  unfold bind, get, lift_res. cbn beta iota. now rewrite Hu.
Qed.

Lemma connect_non_callable slot check_types unique self :
  callable slot = false ->
  connect issubclass get_type_hints alive equal slot check_types unique self
  = (Exc (TypeError (NonCallable slot)), self).
Proof.
  intros Hc. unfold connect, raise. now rewrite Hc.
Qed.

(** The [unique] test returns a truth value or raises the [TypeError] of
    [weakref.ref]. *)
Lemma unique_and_contains_cases unique self slot :
  (exists b, unique_and_contains alive equal unique self slot = Ret b) \/
  (exists e, unique_and_contains alive equal unique self slot = Exc e /\
             _normalize_slot slot = Exc e /\ truthy unique = true).
Proof.
  unfold unique_and_contains.
  destruct (truthy unique); [|left; eauto].
  destruct (_normalize_slot slot) as [normed|e|] eqn:Hn.
  - left. rewrite (contains_normalized _ _ _ _ _ Hn). eauto.
  - right. exists e. rewrite (contains_raises _ _ _ _ _ Hn). auto.
  - now elim (normalize_slot_terminates slot).
Qed.

End Connect.

(* ================================================================= *)
(** ** Emission *)

Lemma for_each_keeps {S X B} (f : S -> B) (xs : list X) (body : X -> M S unit) :
  (forall x s, f (snd (body x s)) = f s) ->
  forall s, f (snd (for_each xs body s)) = f s.
Proof.
  intros H. induction xs as [|x xs IH]; intros s; simpl; [reflexivity|].
  unfold bind. specialize (H x s).
  destruct (body x s) as [[[]| |] s']; simpl in *; [rewrite IH|..]; exact H.
Qed.

Lemma for_each_returns {S X} (xs : list X) (body : X -> M S unit) :
  (forall x s, In x xs -> fst (body x s) = Ret tt) ->
  forall s, fst (for_each xs body s) = Ret tt.
Proof.
  induction xs as [|x xs IH]; intros H s; simpl; [reflexivity|].
  unfold bind. pose proof (H x s (or_introl eq_refl)) as Hx.
  destruct (body x s) as [r s']. simpl in Hx. subst r.
  apply IH. intros y t Hy. apply H. now right.
Qed.

Lemma nth_error_skipn_cons {A} (l : list A) (i : nat) (x : A) :
  nth_error l i = Some x -> skipn i l = x :: skipn (S i) l.
Proof.
  revert i. induction l as [|y l IH]; intros [|i]; simpl; try discriminate.
  - now intros [= ->].
  - intros H. now rewrite (IH i H).
Qed.

Lemma nth_error_skipn_nil {A} (l : list A) (i : nat) :
  nth_error l i = None -> skipn i l = [].
Proof.
  intros H. apply skipn_all2. now apply nth_error_None.
Qed.

Section EmitStep.

Context {U : Type}.
Variable equal : ObjId -> ObjId -> bool.
Variable invoke : PyValue -> list PyValue -> M (World U) unit.

Lemma instances_set_instance (self : nat) (si : SignalInstance) (w : World U) :
  instances (set_instance self si w) self = si.
Proof. simpl. now rewrite Nat.eqb_refl. Qed.

Lemma on_instance_emitter {A} (self : nat) (m : M SignalInstance A) (w : World U) :
  _current_emitter (snd (on_instance self m w)) = _current_emitter w.
Proof. unfold on_instance. now destruct (m (instances w self)). Qed.

(** One turn of the loop of [emit], in terms of [is_dead] and [resolve]. *)
Lemma emit_loop_step fuel self args i rem (w : World U) :
  emit_loop invoke (S fuel) self args i rem w =
  match nth_error (_slots (instances w self)) i with
  | None => (Ret rem, w)
  | Some (slot, max_args) =>
      if negb (well_formed_slot slot)
      then (Exc (TypeError (NotCallable (Other match slot with
                                               | ObjNamePair o _ => o
                                               | SlottedPair o _ => o
                                               | _ => O
                                               end))), w)
      else if is_dead w slot
      then emit_loop invoke fuel self args (S i) (rem ++ [slot]) w
      else (call invoke (resolve w slot) (slice_to args max_args) ;;;
            emit_loop invoke fuel self args (S i) rem) w
  end.
Proof.
  cbn [emit_loop]. unfold bind at 1, get. cbn beta iota.
  destruct (nth_error (_slots (instances w self)) i) as [[slot max_args]|];
    [|reflexivity].
  destruct slot; try reflexivity.
  unfold is_dead, resolve, deref, getattr. cbn [well_formed_slot negb].
  destruct (alive w ref); [|reflexivity].
  destruct (attrs w ref meth); reflexivity.
Qed.

(** [emit] leaves [Signal._current_emitter] as it found it, however it
    ends and whatever the callbacks do. *)
Lemma emit_restores_emitter fuel self args (w : World U) :
  _current_emitter (snd (emit equal invoke fuel self args w)) = _current_emitter w.
Proof.
  unfold emit. unfold bind at 1, get. cbn beta iota.
  destruct (_is_blocked (instances w self)); [reflexivity|].
  unfold bind, _emitting, try_finally.
  destruct (emit_loop invoke fuel self args 0 []
              (set_current_emitter (Some self) w)) as [[rem| |] w1];
    try reflexivity.
  rewrite (for_each_keeps (@_current_emitter U)); [reflexivity|].
  intros x s. apply on_instance_emitter.
Qed.

End EmitStep.

Section EmitRun.

Context {U : Type}.
Variable equal : ObjId -> ObjId -> bool.
Variable invoke : PyValue -> list PyValue -> M (World U) unit.
Variable self : nat.

Lemma frame_refl (w : World U) : frame self w w.
Proof. repeat split. Qed.

Lemma frame_trans (w1 w2 w3 : World U) :
  frame self w1 w2 -> frame self w2 w3 -> frame self w1 w3.
Proof.
  intros (Hs & Ha & Ht) (Hs' & Ha' & Ht'). repeat split.
  - congruence.
  - intros o. now rewrite Ha'.
  - intros o n. now rewrite Ht'.
Qed.

Lemma frame_set_current_emitter (e : option nat) (w : World U) :
  frame self w (set_current_emitter e w).
Proof. repeat split. Qed.

Lemma is_dead_frame (w w' : World U) (slot : PyValue) :
  frame self w w' -> is_dead w' slot = is_dead w slot.
Proof.
  intros (_ & Ha & Ht). destruct slot; try reflexivity.
  unfold is_dead, deref, getattr. rewrite Ha.
  destruct (alive w ref); [now rewrite Ht|reflexivity].
Qed.

Lemma resolve_frame (w w' : World U) (slot : PyValue) :
  frame self w w' -> resolve w' slot = resolve w slot.
Proof.
  intros (_ & _ & Ht). destruct slot; try reflexivity.
  unfold resolve, getattr. now rewrite Ht.
Qed.

Lemma call_frame cb args (w : World U) :
  stable self invoke -> frame self w (snd (call invoke cb args w)).
Proof.
  intros H. unfold call. destruct (callable cb); [apply H|apply frame_refl].
Qed.

Lemma live_slots_cons_live (w : World U) s rest :
  is_dead w (fst s) = false ->
  live_slots w (s :: rest) = s :: live_slots w rest.
Proof. intros H. unfold live_slots. simpl. now rewrite H. Qed.

Lemma live_slots_cons_dead (w : World U) s rest :
  is_dead w (fst s) = true ->
  live_slots w (s :: rest) = live_slots w rest.
Proof. intros H. unfold live_slots. simpl. now rewrite H. Qed.

Lemma dead_slots_cons_live (w : World U) s rest :
  is_dead w (fst s) = false ->
  dead_slots w (s :: rest) = dead_slots w rest.
Proof. intros H. unfold dead_slots. simpl. now rewrite H. Qed.

Lemma dead_slots_cons_dead (w : World U) s rest :
  is_dead w (fst s) = true ->
  dead_slots w (s :: rest) = fst s :: dead_slots w rest.
Proof. intros H. unfold dead_slots. simpl. now rewrite H. Qed.

(** With callbacks that leave the list and the receivers alone, the loop
    of [emit] from index [i] calls the live subscriptions from [i] on, in
    order, and returns the dead ones. *)
Lemma emit_loop_run (args : list PyValue) (w0 : World U) :
  stable self invoke ->
  (forall s, In s (_slots (instances w0 self)) -> well_formed_slot (fst s) = true) ->
  forall fuel i rem (w : World U),
    frame self w0 w ->
    (List.length (_slots (instances w0 self)) - i < fuel)%nat ->
    emit_loop invoke fuel self args i rem w =
    (for_each (live_slots w0 (skipn i (_slots (instances w0 self))))
              (invoke_slot invoke w0 args) ;;;
     ret (rem ++ dead_slots w0 (skipn i (_slots (instances w0 self))))) w.
Proof.
  intros Hst Hwf.
  induction fuel as [|fuel IH]; intros i rem w Hfr Hfuel; [lia|].
  rewrite emit_loop_step.
  destruct Hfr as (Hs & Ha & Ht). rewrite Hs.
  destruct (nth_error (_slots (instances w0 self)) i) as [[slot max_args]|] eqn:En.
  - assert (Hlt : (i < List.length (_slots (instances w0 self)))%nat)
      by (apply nth_error_Some; congruence).
    rewrite (nth_error_skipn_cons _ _ _ En).
    pose proof (Hwf _ (nth_error_In _ _ En)) as Hw1. cbn [fst] in Hw1.
    rewrite Hw1. cbn [negb].
    assert (Hfr : frame self w0 w) by (repeat split; assumption).
    rewrite (is_dead_frame _ _ _ Hfr), (resolve_frame _ _ _ Hfr).
    destruct (is_dead w0 slot) eqn:Ed.
    + rewrite live_slots_cons_dead, dead_slots_cons_dead by exact Ed.
      rewrite IH by (assumption || lia).
      cbn [fst]. now rewrite <- app_assoc.
    + rewrite live_slots_cons_live, dead_slots_cons_live by exact Ed.
      cbn [for_each]. unfold invoke_slot at 1. cbn [fst snd].
      unfold bind.
      pose proof (call_frame (resolve w0 slot) (slice_to args max_args) w Hst) as Hc.
      destruct (call invoke (resolve w0 slot) (slice_to args max_args) w)
        as [[[]| |] w']; try reflexivity.
      rewrite IH; [reflexivity| |lia].
      exact (frame_trans _ _ _ Hfr Hc).
  - rewrite (nth_error_skipn_nil _ _ En). cbn. now rewrite app_nil_r.
Qed.

(** A dead callback is a weak reference and a name: it is its own normal
    form. *)
Lemma is_dead_normalized (w : World U) (slot : PyValue) :
  is_dead w slot = true -> _normalize_slot slot = Ret slot.
Proof. destruct slot; simpl; congruence. Qed.

Lemma dead_slots_normalized (w : World U) (slots : list StoredSlot) :
  forall x, In x (dead_slots w slots) -> _normalize_slot x = Ret x.
Proof.
  intros x Hx. unfold dead_slots in Hx.
  apply in_map_iff in Hx as (s & <- & Hs).
  apply filter_In in Hs as [_ Hs]. exact (is_dead_normalized _ _ Hs).
Qed.

(** Removing, one after the other, the first subscription that equals each
    dead callback leaves the live subscriptions, where no live subscription
    equals a dead one. *)
Lemma prune_dead (w : World U) (slots : list StoredSlot) :
  forall live,
    (forall s, In s live -> is_dead w (fst s) = false) ->
    dead_apart equal w (live ++ slots) ->
    fold_left (fun l x => remove_first (alive w) equal x l)
              (dead_slots w slots) (live ++ slots)
    = live ++ live_slots w slots.
Proof.
  induction slots as [|[s m] rest IH]; intros live Hlive Hap; [reflexivity|].
  destruct (is_dead w s) eqn:Ed.
  - rewrite live_slots_cons_dead, dead_slots_cons_dead by exact Ed.
    cbn [fold_left fst].
    rewrite remove_first_split.
    + apply IH; [exact Hlive|].
      intros x d Hx Hd. apply Hap.
      * apply in_app_or in Hx as [Hx|Hx]; apply in_or_app; [now left|right; now right].
      * apply in_app_or in Hd as [Hd|Hd]; apply in_or_app; [now left|right; now right].
    + intros x Hx. apply (Hap x (s, m)).
      * apply in_or_app. now left.
      * apply in_or_app. right. now left.
      * now apply Hlive.
      * exact Ed.
    + apply slot_eq_refl.
  - rewrite live_slots_cons_live, dead_slots_cons_live by exact Ed.
    change (live ++ (s, m) :: rest) with (live ++ [(s, m)] ++ rest) in *.
    change (live ++ (s, m) :: live_slots w rest)
      with (live ++ [(s, m)] ++ live_slots w rest).
    rewrite !app_assoc in *. apply IH; [|exact Hap].
    intros x Hx. apply in_app_or in Hx as [Hx|[<-|[]]]; auto.
Qed.

(** The loop after the [with] of [emit]: one [disconnect] for each
    callback of [rem]. *)
Lemma disconnect_each (rem : list PyValue) :
  (forall x, In x rem -> _normalize_slot x = Ret x) ->
  forall w : World U, exists w',
    for_each rem
      (fun slot w =>
         on_instance self (disconnect (alive w) equal (Some slot) true) w) w
    = (Ret tt, w') /\
    _slots (instances w' self)
    = fold_left (fun l x => remove_first (alive w) equal x l) rem
                (_slots (instances w self)) /\
    user w' = user w /\
    _current_emitter w' = _current_emitter w /\
    _is_blocked (instances w' self) = _is_blocked (instances w self).
Proof.
  induction rem as [|x rem IH]; intros Hn w.
  - exists w. now repeat split.
  - cbn [for_each fold_left]. unfold bind, on_instance at 1.
    rewrite (disconnect_remove_first _ _ _ _ _ (Hn x (or_introl eq_refl))).
    destruct (IH (fun y Hy => Hn y (or_intror Hy))
                 (set_instance self
                    (set_slots (instances w self)
                       (remove_first (alive w) equal x (_slots (instances w self))))
                    w)) as (w' & Hrun & Hslots & Huser & Hem & Hbl).
    exists w'. rewrite Hrun. rewrite instances_set_instance in Hslots, Hbl.
    now repeat split.
Qed.

End EmitRun.

(* ================================================================= *)
(** * The claims *)

Lemma len_build_parameters (types : list Annotation) :
  forall i, len (build_parameters i types) = len types.
Proof.
  induction types as [|t rest IH]; intros i; [reflexivity|].
  cbn [build_parameters]. rewrite !len_cons. now rewrite IH.
Qed.

Lemma len_build_signature (types : list Annotation) :
  len (_build_signature types) = len types.
Proof. apply len_build_parameters. Qed.

(** ** C1 *)

(** C1, as stated, fails: on the channel declared with [(int,)], whose only
    signature has one parameter, connecting [def f(): ...] stores the
    max-arity 0; and connecting [def star( *args): ...] stores 10^10, so that
    [emit(1, 2, 3)] passes it three arguments. *)
Lemma connect_stores_signature_count_counterexample :
  (forall spec, In spec (signatures int_channel) -> len spec = 1) /\
  connect same_class no_hints all_alive same_object f false (PyBool false) int_channel
  = (Ret tt, with_slots [(f, 0)] false) /\
  connect same_class no_hints all_alive same_object star false (PyBool false) int_channel
  = (Ret tt, with_slots [(star, 10000000000)] false) /\
  user (snd (emit same_object logging 5 0 [PyInt 1; PyInt 2; PyInt 3]
               (world_of (with_slots [(star, 10000000000)] false) None [] [])))
  = [(star, [PyInt 1; PyInt 2; PyInt 3])].
Proof.
  split; [|repeat split; vm_compute; reflexivity].
  intros spec [<-|[]]. reflexivity.
Qed.

(** C1, amended: a successful [connect(callback)] that adds a subscription
    appends, at the end of the list, the normalized callback with the
    callback's own maximum number of positional arguments (as
    [_acceptable_posarg_range] counts it, not the matched signature's
    parameter count); the matched signature is the first, in order of
    decreasing parameter count, that accepts the callback, and it has at
    least as many parameters as the callback requires; and [args[:maxargs]],
    which is what [emit] passes, never has more than [maxargs] elements. *)
Theorem connect_stores_callback_maxargs :
  forall issubclass get_type_hints alive equal slot check_types unique self self',
    unique_and_contains alive equal unique self slot = Ret false ->
    connect issubclass get_type_hints alive equal slot check_types unique self
    = (Ret tt, self') ->
    exists slot_sig minargs maxargs normed before spec after,
      signature slot = Ret slot_sig /\
      _acceptable_posarg_range slot_sig true = Ret (minargs, maxargs) /\
      _normalize_slot slot = Ret normed /\
      self' = set_slots self (_slots self ++ [(normed, maxargs)]) /\
      sorted_reverse (signatures self) len = before ++ spec :: after /\
      (forall s, In s before ->
         len spec <= len s /\
         exists e, try_spec issubclass get_type_hints slot check_types slot_sig s
                   = Exc (ValueError e)) /\
      (forall s, In s after -> len s <= len spec) /\
      try_spec issubclass get_type_hints slot check_types slot_sig spec = Ret maxargs /\
      minargs <= len spec /\
      forall args : list PyValue, len (slice_to args maxargs) <= maxargs.
Proof.
  intros issubclass get_type_hints alive equal slot check_types unique self self'
    Hu Hc.
  destruct (callable slot) eqn:Ecall;
    [|rewrite connect_non_callable in Hc by exact Ecall; discriminate].
  rewrite connect_unfold in Hc by assumption.
  destruct (signature slot) as [slot_sig| |] eqn:Esig; try discriminate.
  destruct (match_signature issubclass get_type_hints slot check_types slot_sig
              (signatures self) (sorted_reverse (signatures self) len) [])
    as [maxargs| |] eqn:Em; try discriminate.
  destruct (_normalize_slot slot) as [normed| |] eqn:En; try discriminate.
  injection Hc as <-.
  destruct (match_signature_ret _ _ _ _ _ _ _ _ _ Em)
    as (before & spec & after & Hsplit & Hspec & Hbefore).
  destruct (try_spec_ret _ _ _ _ _ _ _ Hspec) as (minargs & Hrange & Hmin).
  pose proof (sorted_reverse_decreasing (signatures self) len) as Hdec.
  rewrite Hsplit in Hdec. apply decreasing_split in Hdec as [Hb Ha].
  exists slot_sig, minargs, maxargs, normed, before, spec, after.
  repeat split; auto.
  intros args. apply acceptable_posarg_range_bounds in Hrange.
  rewrite slice_to_len by lia. lia.
Qed.

Lemma connect_stores_callback_maxargs_witness :
  exists slot_sig minargs maxargs normed before spec after,
    signature g = Ret slot_sig /\
    _acceptable_posarg_range slot_sig true = Ret (minargs, maxargs) /\
    _normalize_slot g = Ret normed /\
    with_slots [(f, 0); (g, 1)] false
    = set_slots (with_slots [(f, 0)] false)
                (_slots (with_slots [(f, 0)] false) ++ [(normed, maxargs)]) /\
    sorted_reverse (signatures (with_slots [(f, 0)] false)) len
    = before ++ spec :: after /\
    (forall s, In s before ->
       len spec <= len s /\
       exists e, try_spec same_class no_hints g false slot_sig s = Exc (ValueError e)) /\
    (forall s, In s after -> len s <= len spec) /\
    try_spec same_class no_hints g false slot_sig spec = Ret maxargs /\
    minargs <= len spec /\
    forall args : list PyValue, len (slice_to args maxargs) <= maxargs.
Proof.
  apply (connect_stores_callback_maxargs same_class no_hints all_alive same_object
           g false (PyBool false)
           (with_slots [(f, 0)] false) (with_slots [(f, 0); (g, 1)] false));
    reflexivity.
Defined.

(** ** C2 *)

(** C2, as stated, fails: with [f] connected, [connect(f, unique="error")]
    returns without raising; and where [f] is connected twice,
    [connect(f, unique=True)] leaves two subscriptions for it. *)
Lemma connect_unique_error_counterexample :
  contains all_alive same_object (with_slots [(f, 0)] false) f = Ret true /\
  connect same_class no_hints all_alive same_object f false (PyStr "error")
          (with_slots [(f, 0)] false)
  = (Ret tt, with_slots [(f, 0)] false) /\
  contains all_alive same_object (with_slots [(f, 0); (f, 0)] false) f = Ret true /\
  connect same_class no_hints all_alive same_object f false (PyBool true)
          (with_slots [(f, 0); (f, 0)] false)
  = (Ret tt, with_slots [(f, 0); (f, 0)] false) /\
  List.length (subscriptions_of all_alive same_object f
                 (_slots (with_slots [(f, 0); (f, 0)] false))) = 2%nat.
Proof. repeat split; vm_compute; reflexivity. Qed.

(** C2, amended: for a callback already connected, [connect(callback,
    unique="raise")] raises the [ValueError] "Slot already connect...",
    whereas [connect(callback, unique=u)] for [u = True], or any other true
    value that is not the string "raise" (such as "error"), returns without
    adding a subscription; in both cases the subscription list is unchanged
    (so a callback subscribed once is still subscribed once). *)
Theorem connect_unique_on_connected :
  forall issubclass get_type_hints alive equal slot check_types self,
    callable slot = true ->
    contains alive equal self slot = Ret true ->
    connect issubclass get_type_hints alive equal slot check_types (PyStr "raise") self
    = (Exc (ValueError AlreadyConnected), self) /\
    connect issubclass get_type_hints alive equal slot check_types (PyBool true) self
    = (Ret tt, self) /\
    forall unique,
      truthy unique = true -> eq_str unique "raise" = false ->
      connect issubclass get_type_hints alive equal slot check_types unique self
      = (Ret tt, self).
Proof.
  intros issubclass get_type_hints alive equal slot check_types self Hc Hin.
  repeat split.
  - rewrite connect_duplicate; [reflexivity|exact Hc|exact Hin].
  - rewrite connect_duplicate; [reflexivity|exact Hc|exact Hin].
  - intros unique Ht He.
    rewrite connect_duplicate; [now rewrite He|exact Hc|].
    unfold unique_and_contains. now rewrite Ht.
Qed.

Lemma connect_unique_on_connected_witness :
  connect same_class no_hints all_alive same_object on_change false (PyStr "raise")
          (with_slots [(f, 0); (RefNamePair 7%nat "on_change", 1)] false)
  = (Exc (ValueError AlreadyConnected),
     with_slots [(f, 0); (RefNamePair 7%nat "on_change", 1)] false) /\
  connect same_class no_hints all_alive same_object on_change false (PyBool true)
          (with_slots [(f, 0); (RefNamePair 7%nat "on_change", 1)] false)
  = (Ret tt, with_slots [(f, 0); (RefNamePair 7%nat "on_change", 1)] false) /\
  forall unique,
    truthy unique = true -> eq_str unique "raise" = false ->
    connect same_class no_hints all_alive same_object on_change false unique
            (with_slots [(f, 0); (RefNamePair 7%nat "on_change", 1)] false)
    = (Ret tt, with_slots [(f, 0); (RefNamePair 7%nat "on_change", 1)] false).
Proof.
  apply (connect_unique_on_connected same_class no_hints all_alive same_object
           on_change false
           (with_slots [(f, 0); (RefNamePair 7%nat "on_change", 1)] false));
    reflexivity.
Defined.

(** ** C7 *)

(** C7: on a channel declared with the two-parameter signature [(A, B)],
    [connect(callback)] raises, at once, the [ValueError] "Cannot connect
    slot ..." for every callback that requires at least 3 positional
    arguments, and it succeeds, appending the subscription, for every
    callback that requires 0, 1 or 2 and has no required keyword-only
    parameter, provided that the callback has a normal form.  A bound method
    of an object that cannot be weakly referenced has none: for it, although
    it passes every check that the docstring of [connect] lists, the call
    ends, after the validation, with the [TypeError] of [weakref.ref], which
    the docstring knows only for targets that are not callable. *)
Theorem connect_two_parameter_channel :
  forall issubclass get_type_hints alive equal A B self,
    signatures self = [_build_signature [A; B]] ->
    (forall slot slot_sig normed,
       signature slot = Ret slot_sig ->
       required_posargs slot_sig <= 2 ->
       has_required_kwonly slot_sig = false ->
       _normalize_slot slot = Ret normed ->
       connect issubclass get_type_hints alive equal slot false (PyBool false) self
       = (Ret tt,
          set_slots self
            (_slots self ++
             [(normed, required_posargs slot_sig + optional_posargs slot_sig)]))) /\
    (forall slot slot_sig,
       signature slot = Ret slot_sig ->
       3 <= required_posargs slot_sig ->
       forall check_types, exists errors,
         connect issubclass get_type_hints alive equal slot check_types
                 (PyBool false) self
         = (Exc (ValueError (CannotConnect slot errors (signatures self))), self)) /\
    (forall receiver meth slot_sig,
       required_posargs slot_sig <= 2 ->
       has_required_kwonly slot_sig = false ->
       callable (SlottedMethod receiver meth (Some slot_sig)) = true /\
       connect issubclass get_type_hints alive equal
               (SlottedMethod receiver meth (Some slot_sig)) false (PyBool false) self
       = (Exc (TypeError (CannotWeakref receiver)), self)).
Proof.
  intros issubclass get_type_hints alive equal A B self Hsigs.
  assert (Hlen : len (_build_signature [A; B]) = 2) by reflexivity.
  assert (Hpass : forall slot slot_sig,
            signature slot = Ret slot_sig ->
            required_posargs slot_sig <= 2 ->
            has_required_kwonly slot_sig = false ->
            connect issubclass get_type_hints alive equal slot false (PyBool false) self
            = match _normalize_slot slot with
              | Ret normed =>
                  (Ret tt,
                   set_slots self
                     (_slots self ++
                      [(normed, required_posargs slot_sig + optional_posargs slot_sig)]))
              | Exc e => (Exc e, self)
              | OutOfFuel => (OutOfFuel, self)
              end).
  { intros slot slot_sig Hsig Hreq Hkw.
    pose proof (signature_callable _ _ Hsig) as Hcall.
    rewrite connect_unfold by (assumption || reflexivity).
    rewrite Hsig, Hsigs. cbn [sorted_reverse fold_right insert_desc match_signature].
    rewrite try_spec_unchecked, Hkw, Hlen.
    replace (required_posargs slot_sig >? 2) with false
      by (symmetry; rewrite Z.gtb_ltb; apply Z.ltb_ge; lia).
    reflexivity. }
  split; [|split].
  - intros slot slot_sig normed Hsig Hreq Hkw Hn.
    rewrite (Hpass slot slot_sig Hsig Hreq Hkw). now rewrite Hn.
  - intros slot slot_sig Hsig Hreq check_types.
    pose proof (signature_callable _ _ Hsig) as Hcall.
    rewrite connect_unfold by (assumption || reflexivity).
    rewrite Hsig.
    destruct (match_signature_refused issubclass get_type_hints slot check_types
                slot_sig (signatures self)
                (sorted_reverse (signatures self) len)) with (errors := @nil Message)
      as [errors ->]; [|eauto].
    intros s Hs. apply sorted_reverse_In in Hs. rewrite Hsigs in Hs.
    destruct Hs as [<-|[]].
    apply try_spec_too_short. rewrite Hlen. lia.
  - intros receiver meth slot_sig Hreq Hkw. split; [reflexivity|].
    now rewrite (Hpass (SlottedMethod receiver meth (Some slot_sig)) slot_sig
                   eq_refl Hreq Hkw).
Qed.

(** On the channel declared with [(int, int)]: [g] and the bound method
    [obj7.on_change] connect, [h] is refused, and connecting the method of
    object 9, which cannot be weakly referenced, raises [TypeError]. *)
Lemma connect_two_parameter_channel_witness :
  connect same_class no_hints all_alive same_object g false (PyBool false)
          two_int_channel
  = (Ret tt, set_slots two_int_channel [(g, 1)]) /\
  connect same_class no_hints all_alive same_object on_change false (PyBool false)
          two_int_channel
  = (Ret tt, set_slots two_int_channel [(RefNamePair 7%nat "on_change", 1)]) /\
  (exists errors,
     connect same_class no_hints all_alive same_object h false (PyBool false)
             two_int_channel
     = (Exc (ValueError (CannotConnect h errors (signatures two_int_channel))),
        two_int_channel)) /\
  callable slotted_on_change = true /\
  connect same_class no_hints all_alive same_object slotted_on_change false
          (PyBool false) two_int_channel
  = (Exc (TypeError (CannotWeakref 9%nat)), two_int_channel).
Proof.
  destruct (connect_two_parameter_channel same_class no_hints all_alive same_object
              (Cls int) (Cls int) two_int_channel eq_refl) as (Hpass & Hfail & Hslip).
  split; [|split; [|split]].
  - apply (Hpass g [positional "x"] g); [reflexivity|simpl; lia|reflexivity..].
  - apply (Hpass on_change [positional "value"] (RefNamePair 7%nat "on_change"));
      [reflexivity|simpl; lia|reflexivity..].
  - apply (Hfail h [positional "a"; positional "b"; positional "c"]);
      [reflexivity|simpl; lia].
  - apply (Hslip 9%nat "on_change"%string [positional "value"]);
      [simpl; lia|reflexivity].
Defined.

(** The same by evaluation. *)
Example connect_two_parameter_channel_examples :
  connect same_class no_hints all_alive same_object g false (PyBool false)
          two_int_channel
  = (Ret tt,
     mkSignalInstance [_build_signature [Cls int; Cls int]] None None [(g, 1)] false)
  /\
  connect same_class no_hints all_alive same_object h false (PyBool false)
          two_int_channel
  = (Exc (ValueError
            (CannotConnect h [TooFewSpecParams 3 2]
               [_build_signature [Cls int; Cls int]])),
     two_int_channel) /\
  connect same_class no_hints all_alive same_object slotted_on_change false
          (PyBool false) two_int_channel
  = (Exc (TypeError (CannotWeakref 9%nat)), two_int_channel) /\
  connect same_class no_hints all_alive same_object slotted_on_change false
          (PyBool true) two_int_channel
  = (Exc (TypeError (CannotWeakref 9%nat)), two_int_channel).
Proof. repeat split; vm_compute; reflexivity. Qed.

(** ** C8 *)

(** C8, as stated, fails: where [f] is connected twice, [disconnect(f)]
    removes the first subscription only, and [f in dispatcher] is still
    true. *)
Lemma disconnect_then_contains_counterexample :
  disconnect all_alive same_object (Some f) true
             (with_slots [(f, 0); (g, 1); (f, 0)] false)
  = (Ret tt, with_slots [(g, 1); (f, 0)] false) /\
  contains all_alive same_object (with_slots [(g, 1); (f, 0)] false) f = Ret true.
Proof. split; vm_compute; reflexivity. Qed.

(** C8, amended: [disconnect()] with no argument clears all subscriptions;
    [disconnect(cb)] on a [cb] that the dispatcher contains removes the first
    subscription whose callback equals the normalized [cb] ([==], which for
    weak references to live receivers is the receivers' [__eq__]) and no
    other, after which [cb in dispatcher] is false exactly when no later
    subscription in the list equals the normalized [cb] (as when [cb] was
    connected once and no other receiver equals its own); and on a [cb] that
    the dispatcher does not contain (as after a first [disconnect] of such a
    callback), [disconnect(cb)] is a no-op with [missing_ok=True] and raises
    the [ValueError] "slot is not connected" with [missing_ok=False]. *)
Theorem disconnect_removes_first_match :
  forall alive equal (self : SignalInstance) (cb : PyValue) (missing_ok : bool),
    disconnect alive equal None missing_ok self = (Ret tt, set_slots self []) /\
    (contains alive equal self cb = Ret true ->
     exists normed before s m after,
       _normalize_slot cb = Ret normed /\
       _slots self = before ++ (s, m) :: after /\
       slot_eq alive equal s normed = true /\
       (forall x, In x before -> slot_eq alive equal (fst x) normed = false) /\
       disconnect alive equal (Some cb) missing_ok self
       = (Ret tt, set_slots self (before ++ after)) /\
       (contains alive equal (set_slots self (before ++ after)) cb = Ret false <->
        forall x, In x after -> slot_eq alive equal (fst x) normed = false)) /\
    (contains alive equal self cb = Ret false ->
     disconnect alive equal (Some cb) true self = (Ret tt, self) /\
     disconnect alive equal (Some cb) false self
     = (Exc (ValueError (NotConnected cb)), self)).
Proof.
  intros alive equal self cb missing_ok. split; [reflexivity|]. split.
  - intros Hin.
    destruct (disconnect_connected alive equal self cb Hin)
      as (normed & before & s & m & after & Hn & Heq & Hs & Hb & Hd).
    exists normed, before, s, m, after.
    split; [exact Hn|]. split; [exact Heq|]. split; [exact Hs|].
    split; [exact Hb|]. split; [apply Hd|]. split.
    + intros Hc x Hx.
      apply contains_false in Hc as (normed' & Hn' & Hc).
      assert (normed' = normed) by congruence. subst normed'.
      apply Hc. destruct self; simpl. apply in_or_app. now right.
    + intros Ha. apply contains_false. exists normed. split; [exact Hn|].
      intros x Hx. destruct self; simpl in Hx.
      apply in_app_or in Hx as [Hx|Hx]; auto.
  - apply disconnect_missing.
Qed.

(** A callback connected once: gone after [disconnect], and the second
    [disconnect] is a no-op or an error. *)
Example disconnect_twice :
  disconnect all_alive same_object (Some on_change) true
    (with_slots [(f, 0); (RefNamePair 7%nat "on_change", 1)] false)
  = (Ret tt, with_slots [(f, 0)] false) /\
  contains all_alive same_object (with_slots [(f, 0)] false) on_change = Ret false /\
  disconnect all_alive same_object (Some on_change) true (with_slots [(f, 0)] false)
  = (Ret tt, with_slots [(f, 0)] false) /\
  disconnect all_alive same_object (Some on_change) false (with_slots [(f, 0)] false)
  = (Exc (ValueError (NotConnected on_change)), with_slots [(f, 0)] false).
Proof. repeat split; vm_compute; reflexivity. Qed.

(** Two receivers that are equal: with the methods of objects 7 and 8
    connected in this order, [disconnect(obj8.on_change)] removes the
    subscription of object 7, and [obj8.on_change in dispatcher] is still
    true; once object 7 is destroyed, it is the subscription of object 8
    that goes. *)
Example disconnect_equal_receivers :
  disconnect all_alive all_equal (Some on_change_8) true
    (with_slots [(RefNamePair 7%nat "on_change", 1);
                 (RefNamePair 8%nat "on_change", 1)] false)
  = (Ret tt, with_slots [(RefNamePair 8%nat "on_change", 1)] false) /\
  contains all_alive all_equal
    (with_slots [(RefNamePair 8%nat "on_change", 1)] false) on_change_8 = Ret true /\
  disconnect (fun o => Nat.eqb o 8) all_equal (Some on_change_8) true
    (with_slots [(RefNamePair 7%nat "on_change", 1);
                 (RefNamePair 8%nat "on_change", 1)] false)
  = (Ret tt, with_slots [(RefNamePair 7%nat "on_change", 1)] false).
Proof. repeat split; vm_compute; reflexivity. Qed.

(** ** C9 *)

(** C9: a call of [connect] that raises (a target that is not callable, a
    callable without signature, no compatible signature, a duplicate with
    [unique="raise"], a receiver that cannot be weakly referenced) leaves
    the dispatcher, and so its subscription list, exactly as it was. *)
Theorem connect_failure_is_atomic :
  forall issubclass get_type_hints alive equal slot check_types unique self e self',
    connect issubclass get_type_hints alive equal slot check_types unique self
    = (Exc e, self') ->
    self' = self /\ _slots self' = _slots self.
Proof.
  intros issubclass get_type_hints alive equal slot check_types unique self e self' H.
  assert (self' = self); [|now subst].
  destruct (callable slot) eqn:Ecall;
    [|rewrite connect_non_callable in H by exact Ecall; congruence].
  destruct (unique_and_contains_cases alive equal unique self slot)
    as [[[|] Eu]|(e' & Eu & _)].
  - rewrite connect_duplicate in H by assumption.
    destruct (eq_str unique "raise"); congruence.
  - rewrite connect_unfold in H by assumption.
    destruct (signature slot) as [slot_sig| |]; try congruence.
    destruct (match_signature _ _ _ _ _ _ _ _) as [maxargs| |]; try congruence.
    destruct (_normalize_slot slot) as [normed| |]; congruence.
  - rewrite (connect_test_raises _ _ _ _ _ _ _ _ _ Ecall Eu) in H. congruence.
Qed.

Lemma connect_failure_is_atomic_witness :
  connect same_class no_hints all_alive same_object h true (PyBool false)
          (with_slots [(f, 0)] false)
  = (Exc (ValueError (CannotConnect h [TooFewSpecParams 3 1]
                        [_build_signature [Cls int]])),
     with_slots [(f, 0)] false) /\
  with_slots [(f, 0)] false = with_slots [(f, 0)] false /\
  _slots (with_slots [(f, 0)] false) = _slots (with_slots [(f, 0)] false).
Proof.
  split; [reflexivity|].
  apply (connect_failure_is_atomic same_class no_hints all_alive same_object
           h true (PyBool false)
           (with_slots [(f, 0)] false)
           (ValueError (CannotConnect h [TooFewSpecParams 3 1]
                          [_build_signature [Cls int]]))
           (with_slots [(f, 0)] false)).
  reflexivity.
Defined.

(** A target that is not callable, and a callback that no signature accepts. *)
Example connect_failures :
  connect same_class no_hints all_alive same_object (PyInt 5) false (PyBool false)
          (with_slots [(f, 0)] false)
  = (Exc (TypeError (NonCallable (PyInt 5))), with_slots [(f, 0)] false) /\
  connect same_class no_hints all_alive same_object h false (PyBool false)
          (with_slots [(f, 0)] false)
  = (Exc (ValueError (CannotConnect h [TooFewSpecParams 3 1]
                        [_build_signature [Cls int]])),
     with_slots [(f, 0)] false).
Proof. split; vm_compute; reflexivity. Qed.

(** ** C10 *)

(** C10: [disconnect()] with no argument on a dispatcher without
    subscriptions returns normally and leaves the dispatcher as it was, its
    list empty (where Qt raises). *)
Theorem disconnect_all_on_empty :
  forall alive equal (self : SignalInstance) (missing_ok : bool),
    _slots self = [] ->
    disconnect alive equal None missing_ok self = (Ret tt, self) /\
    _slots (snd (disconnect alive equal None missing_ok self)) = [].
Proof.
  intros alive equal self missing_ok H. unfold disconnect, modify. cbn [snd].
  split; [|now destruct self].
  rewrite <- H. now rewrite set_slots_same.
Qed.

Lemma disconnect_all_on_empty_witness :
  disconnect all_alive same_object None true int_channel = (Ret tt, int_channel) /\
  _slots (snd (disconnect all_alive same_object None true int_channel)) = [].
Proof.
  apply (disconnect_all_on_empty all_alive same_object int_channel true). reflexivity.
Defined.

(** ** C3 *)

(** C3, as stated, fails: a dispatcher that was blocked before entering the
    guard is not blocked after leaving it, whether the guarded scope ends
    normally or with an exception. *)
Lemma blocked_guard_restores_counterexample :
  _is_blocked (instances (world_of (with_slots [] true) None [] tt) 0) = true /\
  with_blocked 0 (ret tt) (world_of (with_slots [] true) None [] tt)
  = (Ret tt, set_instance 0 (with_slots [] false)
               (set_instance 0 (with_slots [] true)
                  (world_of (with_slots [] true) None [] tt))) /\
  _is_blocked
    (instances
       (snd (with_blocked 0 (ret tt) (world_of (with_slots [] true) None [] tt))) 0)
  = false /\
  _is_blocked
    (instances
       (snd (with_blocked 0 (@failing unit f [])
               (world_of (with_slots [] true) None [] tt))) 0)
  = false.
Proof. repeat split. Qed.

(** C3, amended: the guard returned by [blocked()] sets the suppression flag
    to true on entry and sets it to false on exit, also when an exception
    escapes the guarded scope (which then propagates); so the prior value is
    restored only when the dispatcher was not blocked before, and a
    dispatcher that was blocked before entering the guard is not blocked
    after leaving it. *)
Theorem with_blocked_sets_then_clears :
  forall U A (self : nat) (body : M (World U) A) (w : World U),
    exists w_in,
      SignalBlocker__enter__ (blocked self) w = (Ret tt, w_in) /\
      _is_blocked (instances w_in self) = true /\
      fst (with_blocked self body w) = fst (body w_in) /\
      snd (with_blocked self body w)
      = snd (SignalBlocker__exit__ (blocked self) (snd (body w_in))) /\
      _is_blocked (instances (snd (with_blocked self body w)) self) = false.
Proof.
  intros U A self body w.
  exists (set_instance self (set_is_blocked (instances w self) true) w).
  unfold with_blocked, py_with, bind, SignalBlocker__enter__,
    SignalBlocker__exit__, on_instance, block, modify, blocked. cbn [target].
  destruct (body (set_instance self (set_is_blocked (instances w self) true) w))
    as [r w1].
  repeat split; cbn; now rewrite Nat.eqb_refl.
Qed.

(** ** C4 *)

Lemma all_live {U} (w : World U) (slots : list StoredSlot) :
  (forall s, In s slots -> is_dead w (fst s) = false) ->
  live_slots w slots = slots /\ dead_slots w slots = [].
Proof.
  induction slots as [|s rest IH]; intros H; [now split|].
  pose proof (H s (or_introl eq_refl)) as Hs.
  destruct IH as [Hl Hd]; [intros x Hx; apply H; now right|].
  unfold live_slots, dead_slots in *. simpl. rewrite Hs. simpl.
  now rewrite Hl, Hd.
Qed.

(** The emission of a dispatcher that is not blocked and has no dead
    reference, with callbacks that leave its list and its receivers alone. *)
Lemma emit_all_live {U} (equal : ObjId -> ObjId -> bool)
    (invoke : PyValue -> list PyValue -> M (World U) unit)
    (fuel self : nat) (args : list PyValue) (w : World U) :
  _is_blocked (instances w self) = false ->
  stable self invoke ->
  (forall s, In s (_slots (instances w self)) ->
     well_formed_slot (fst s) = true /\ is_dead w (fst s) = false) ->
  (List.length (_slots (instances w self)) < fuel)%nat ->
  emit equal invoke fuel self args w
  = _emitting self
      (for_each (_slots (instances w self)) (invoke_slot invoke w args)) w.
Proof.
  intros Hb Hst Hslots Hfuel.
  unfold emit. unfold bind at 1, get. cbn beta iota. rewrite Hb.
  unfold bind at 1. unfold _emitting, try_finally.
  rewrite (emit_loop_run invoke self args w Hst);
    [|intros s Hs; apply Hslots, Hs|apply frame_set_current_emitter|lia].
  cbn [skipn].
  destruct (all_live w (_slots (instances w self))) as [-> ->];
    [intros s Hs; apply Hslots, Hs|].
  unfold bind, ret.
  destruct (for_each (_slots (instances w self)) (invoke_slot invoke w args)
              (set_current_emitter (Some self) w)) as [[[]| |] w1]; reflexivity.
Qed.

(** C4, as stated, fails: on a blocked dispatcher with subscriptions [f],
    [g], [star] and no dead reference, [emit(42)] calls nothing.  (And on
    the dispatcher not blocked, with callbacks that disconnect themselves
    when called, the list shifts under the iterator: [f] and [star] are
    called, [g] is not.) *)
Lemma emit_in_order_counterexample :
  (forall s, In s (_slots (instances (three_subscribers true) 0)) ->
     is_dead (three_subscribers true) (fst s) = false) /\
  emit same_object logging 5 0 [PyInt 42] (three_subscribers true)
  = (Ret tt, three_subscribers true) /\
  user (snd (emit same_object logging 5 0 [PyInt 42] (three_subscribers true))) = [] /\
  user (snd (emit same_object disconnecting_itself 5 0 [PyInt 42]
               (three_subscribers false)))
  = [(f, []); (star, [PyInt 42])].
Proof.
  split; [|repeat split; vm_compute; reflexivity].
  intros s [<-|[<-|[<-|[]]]]; reflexivity.
Qed.

(** C4, amended: on a dispatcher that is not blocked, with no dead
    reference among its subscriptions, and with callbacks that do not alter
    its subscription list nor its receivers while they run, [emit( *args)]
    is the sequence, under the emitter context, of the calls of its
    subscriptions in insertion order, each with [args] truncated to the
    subscription's stored max-arity (a call that raises ends the sequence). *)
Theorem emit_calls_in_insertion_order :
  forall U equal (invoke : PyValue -> list PyValue -> M (World U) unit)
         fuel self args (w : World U),
    _is_blocked (instances w self) = false ->
    stable self invoke ->
    (forall s, In s (_slots (instances w self)) ->
       well_formed_slot (fst s) = true /\ is_dead w (fst s) = false) ->
    (List.length (_slots (instances w self)) < fuel)%nat ->
    emit equal invoke fuel self args w
    = _emitting self
        (for_each (_slots (instances w self))
           (fun s => call invoke (resolve w (fst s)) (slice_to args (snd s))))
        w.
Proof.
  intros U equal invoke fuel self args w Hb Hst Hslots Hfuel.
  now apply emit_all_live.
Qed.

Lemma logging_stable (self : nat) : stable self logging.
Proof. intros cb args w. repeat split. Qed.

(** On the channel declared with [(int,)], with [f] (no parameter), [g]
    (one) and [star] connected in this order, [emit(42)] is [f()], then
    [g(42)], then [star(42)]. *)
Lemma emit_calls_in_insertion_order_witness :
  emit same_object logging 4 0 [PyInt 42]
    (three_subscribers false)
  = _emitting 0
      (for_each [(f, 0); (g, 1); (star, 10000000000)]
         (fun s =>
            call logging
              (resolve (three_subscribers false) (fst s))
              (slice_to [PyInt 42] (snd s))))
      (three_subscribers false).
Proof.
  apply (emit_calls_in_insertion_order CallLog same_object logging 4 0 [PyInt 42]
           (three_subscribers false)).
  - reflexivity.
  - apply logging_stable.
  - intros s [<-|[<-|[<-|[]]]]; split; reflexivity.
  - simpl. lia.
Defined.

(** The example of the specification: declare [(int,)], connect [f] then
    [g], [emit(42)]: [f()] then [g(42)]. *)
Example emit_42 :
  snd (connect same_class no_hints all_alive same_object g false (PyBool false)
         (snd (connect same_class no_hints all_alive same_object f false
                 (PyBool false) int_channel)))
  = with_slots [(f, 0); (g, 1)] false /\
  user (snd (emit same_object logging 3 0 [PyInt 42]
               (world_of (with_slots [(f, 0); (g, 1)] false) None [] [])))
  = [(f, []); (g, [PyInt 42])].
Proof. split; vm_compute; reflexivity. Qed.

(** ** C5 *)

Lemma for_each_frame {U} (invoke : PyValue -> list PyValue -> M (World U) unit)
    (self : nat) (w0 : World U) (args : list PyValue) (xs : list StoredSlot) :
  stable self invoke ->
  forall w, frame self w (snd (for_each xs (invoke_slot invoke w0 args) w)).
Proof.
  intros Hst. induction xs as [|x xs IH]; intros w; [apply frame_refl|].
  cbn [for_each]. unfold bind, invoke_slot at 1.
  pose proof (call_frame invoke self (resolve w0 (fst x)) (slice_to args (snd x)) w Hst)
    as Hc.
  destruct (call invoke (resolve w0 (fst x)) (slice_to args (snd x)) w)
    as [[[]| |] w1]; cbn [snd] in *; try exact Hc.
  exact (frame_trans self _ _ _ Hc (IH w1)).
Qed.

(** Where the dead subscriptions are those whose receiver is destroyed, no
    live subscription equals a dead one: a reference whose referent is gone
    equals only itself.  The same holds where the receivers compare by
    identity. *)
Lemma dead_apart_destroyed {U} (equal : ObjId -> ObjId -> bool) (w : World U)
    (slots : list StoredSlot) :
  (forall d, In d slots -> is_dead w (fst d) = true ->
     exists ref meth, fst d = RefNamePair ref meth /\ alive w ref = false) ->
  dead_apart equal w slots.
Proof.
  intros H [s ms] [d md] Hs Hd Hlive Hdead. cbn [fst] in *.
  destruct (H _ Hd Hdead) as (ref & meth & E & Ha). cbn [fst] in E. subst d.
  destruct s as [| | |ref' meth'| | | |]; try reflexivity.
  simpl. unfold ref_eq. rewrite Ha, andb_false_r, orb_false_r.
  destruct (Nat.eqb ref' ref) eqn:E; [|reflexivity].
  destruct (String.eqb meth' meth) eqn:E'; [|reflexivity].
  apply Nat.eqb_eq in E. apply String.eqb_eq in E'. subst. congruence.
Qed.

Lemma dead_apart_identity {U} (equal : ObjId -> ObjId -> bool) (w : World U)
    (slots : list StoredSlot) :
  (forall a b, equal a b = true -> a = b) ->
  dead_apart equal w slots.
Proof.
  intros H [s ms] [d md] Hs Hd Hlive Hdead. cbn [fst] in *.
  destruct (slot_eq (alive w) equal s d) eqn:E; [|reflexivity].
  assert (s = d); [|subst; congruence].
  destruct d; try discriminate. destruct s; try discriminate.
  simpl in E. unfold ref_eq in E.
  apply andb_true_iff in E as [E E']. apply String.eqb_eq in E'. subst.
  apply orb_true_iff in E as [E|E].
  - apply Nat.eqb_eq in E. now subst.
  - apply andb_true_iff in E as [_ E]. now rewrite (H _ _ E).
Qed.

(** C5, as stated, fails: on a blocked dispatcher, [emit] returns without
    pruning, and the subscription of the dead receiver is still in the list;
    and where a live callback raises, [emit] raises and the dead subscription
    stays as well. *)
Lemma emit_prunes_counterexample :
  is_dead (with_receiver [] true) (RefNamePair 7%nat "on_change") = true /\
  emit same_object logging 5 0 [PyInt 42] (with_receiver [] true)
  = (Ret tt, with_receiver [] true) /\
  In (RefNamePair 7%nat "on_change", 1)
     (_slots (instances
                (snd (emit same_object logging 5 0 [PyInt 42]
                        (with_receiver [] true))) 0)) /\
  fst (emit same_object failing 5 0 [PyInt 42] (with_receiver [] false))
  = Exc (Exception (Text "boom")) /\
  In (RefNamePair 7%nat "on_change", 1)
     (_slots (instances
                (snd (emit same_object failing 5 0 [PyInt 42]
                        (with_receiver [] false))) 0)).
Proof.
  repeat split; try reflexivity; right; left; reflexivity.
Qed.

(** C5, amended: on a dispatcher that is not blocked, whose live callbacks
    return normally and do not alter its subscription list nor its receivers
    while they run, and where no live subscription equals a dead one (as is
    the case when the dead ones are those whose receiver is destroyed),
    [emit] returns normally; it calls the live subscriptions only (what the
    callbacks leave behind is what the live ones, called in order, leave
    behind); and when it returns, the subscription list is the former list
    without the subscriptions whose receiver is destroyed (or has lost the
    method), the others in their order. *)
Theorem emit_prunes_dead_references :
  forall U equal (invoke : PyValue -> list PyValue -> M (World U) unit)
         fuel self args (w : World U),
    _is_blocked (instances w self) = false ->
    stable self invoke ->
    returns invoke ->
    (forall s, In s (_slots (instances w self)) ->
       well_formed_slot (fst s) = true /\
       (is_dead w (fst s) = false -> callable (resolve w (fst s)) = true)) ->
    dead_apart equal w (_slots (instances w self)) ->
    (List.length (_slots (instances w self)) < fuel)%nat ->
    exists w1 w',
      for_each (live_slots w (_slots (instances w self)))
               (invoke_slot invoke w args)
               (set_current_emitter (Some self) w) = (Ret tt, w1) /\
      emit equal invoke fuel self args w = (Ret tt, w') /\
      user w' = user w1 /\
      _slots (instances w' self) = live_slots w (_slots (instances w self)) /\
      (forall s, In s (_slots (instances w' self)) -> is_dead w (fst s) = false).
Proof.
  intros U equal invoke fuel self args w Hb Hst Hret Hslots Hap Hfuel.
  set (slots := _slots (instances w self)) in *.
  set (ws := set_current_emitter (Some self) w).
  destruct (for_each (live_slots w slots) (invoke_slot invoke w args) ws)
    as [r w1] eqn:Erun.
  assert (Hr : r = Ret tt).
  { change r with (fst (r, w1)). rewrite <- Erun.
    apply for_each_returns. intros x s Hx.
    apply filter_In in Hx as [Hx Hlive]. apply negb_true_iff in Hlive.
    unfold invoke_slot, call.
    rewrite (proj2 (Hslots x Hx) Hlive). apply Hret. }
  subst r.
  assert (Hfr : frame self w w1).
  { apply (frame_trans self w ws w1); [apply frame_set_current_emitter|].
    change w1 with (snd (Ret tt, w1)). rewrite <- Erun.
    now apply for_each_frame. }
  destruct (disconnect_each equal self (dead_slots w slots)
              (dead_slots_normalized w slots)
              (set_current_emitter (_current_emitter w) w1))
    as (w' & Hprune & Hslots' & Huser & _ & _).
  exists w1, w'. split; [reflexivity|].
  assert (Hlist : _slots (instances w' self) = live_slots w slots).
  { rewrite Hslots'. cbn [set_current_emitter instances alive].
    rewrite (fold_remove_first_ext (alive w) (alive w1) equal _ (proj1 (proj2 Hfr))).
    rewrite (proj1 Hfr). fold slots.
    apply (prune_dead equal w slots []); [intros s []|exact Hap]. }
  repeat split.
  - unfold emit. unfold bind at 1, get. cbn beta iota. rewrite Hb.
    unfold bind at 1. unfold _emitting, try_finally.
    rewrite (emit_loop_run invoke self args w Hst);
      [|intros s Hs; apply Hslots, Hs|apply frame_set_current_emitter|fold slots; lia].
    cbn [skipn]. fold slots. fold ws. unfold bind at 1. rewrite Erun.
    cbn [ret app]. exact Hprune.
  - exact Huser.
  - exact Hlist.
  - intros s Hs. rewrite Hlist in Hs.
    apply filter_In in Hs as [_ Hs]. now apply negb_true_iff in Hs.
Qed.

Lemma logging_returns : returns logging.
Proof. intros cb args w. reflexivity. Qed.

(** With object 7 destroyed: [emit(42)] calls [f()] and [g(42)], and the
    subscription of [obj7.on_change] is gone when it returns. *)
Lemma emit_prunes_dead_references_witness :
  exists w1 w',
    for_each (live_slots (with_receiver [] false)
                (_slots (instances (with_receiver [] false) 0)))
             (invoke_slot logging (with_receiver [] false) [PyInt 42])
             (set_current_emitter (Some 0%nat) (with_receiver [] false))
    = (Ret tt, w1) /\
    emit same_object logging 4 0 [PyInt 42] (with_receiver [] false) = (Ret tt, w') /\
    user w' = user w1 /\
    _slots (instances w' 0)
    = live_slots (with_receiver [] false)
        (_slots (instances (with_receiver [] false) 0)) /\
    (forall s, In s (_slots (instances w' 0)) ->
       is_dead (with_receiver [] false) (fst s) = false).
Proof.
  apply (emit_prunes_dead_references CallLog same_object logging 4 0 [PyInt 42]
           (with_receiver [] false)).
  - reflexivity.
  - apply logging_stable.
  - apply logging_returns.
  - intros s [<-|[<-|[<-|[]]]]; split; (reflexivity || discriminate).
  - apply dead_apart_destroyed.
    intros d [<-|[<-|[<-|[]]]]; simpl; intros; try discriminate.
    exists 7%nat, "on_change"%string. split; reflexivity.
  - simpl. lia.
Defined.

(** The same by evaluation, and with object 7 alive, where its method is
    called in its turn and the subscription stays. *)
Example emit_with_receiver :
  user (snd (emit same_object logging 4 0 [PyInt 42] (with_receiver [] false)))
  = [(f, []); (g, [PyInt 42])] /\
  _slots (instances (snd (emit same_object logging 4 0 [PyInt 42]
                            (with_receiver [] false))) 0)
  = [(f, 0); (g, 1)] /\
  user (snd (emit same_object logging 4 0 [PyInt 42] (with_receiver [7%nat] false)))
  = [(f, []); (on_change, [PyInt 42]); (g, [PyInt 42])] /\
  _slots (instances (snd (emit same_object logging 4 0 [PyInt 42]
                            (with_receiver [7%nat] false))) 0)
  = [(f, 0); (RefNamePair 7%nat "on_change", 1); (g, 1)].
Proof. repeat split; vm_compute; reflexivity. Qed.

(** Where a live subscription equals a dead one, the conclusion fails.
    Objects 7 and 8 are alive and equal, object 7 has its method and object
    8 has lost it: [emit] calls the method of object 7, finds the
    subscription of object 8 dead, and the [disconnect] that follows removes
    the first subscription that equals it, which is the one of object 7. *)
Example emit_prunes_equal_receiver :
  is_dead (equal_receivers) (RefNamePair 7%nat "on_change") = false /\
  is_dead (equal_receivers) (RefNamePair 8%nat "on_change") = true /\
  user (snd (emit all_equal logging 4 0 [PyInt 42] equal_receivers))
  = [(on_change, [PyInt 42])] /\
  _slots (instances (snd (emit all_equal logging 4 0 [PyInt 42] equal_receivers)) 0)
  = [(RefNamePair 8%nat "on_change", 1)] /\
  _slots (instances (snd (emit same_object logging 4 0 [PyInt 42] equal_receivers)) 0)
  = [(RefNamePair 7%nat "on_change", 1)].
Proof. repeat split; vm_compute; reflexivity. Qed.

(** ** C6 *)

(** Callbacks that reach the emitter context only through [emit] leave it
    as they found it. *)
Lemma exec_stmt_keeps_emitter
    (emit_ : nat -> list PyValue -> M (World Journal) unit) :
  (forall target a w,
     _current_emitter (snd (emit_ target a w)) = _current_emitter w) ->
  forall args s w,
    _current_emitter (snd (exec_stmt emit_ args s w)) = _current_emitter w.
Proof.
  intros H args [|target a|target a|e] w; cbn [exec_stmt]; try reflexivity.
  - apply H.
  - specialize (H target a w).
    destruct (emit_ target a w) as [[[]| |] w']; exact H.
Qed.

Lemma run_callback_keeps_emitter (equal : ObjId -> ObjId -> bool)
    (code : PyValue -> list Stmt) (fuel depth : nat) :
  keeps_emitter (run_callback equal code fuel depth).
Proof.
  intros cb args w. destruct depth as [|depth]; [reflexivity|].
  cbn [run_callback].
  apply (for_each_keeps (@_current_emitter Journal)).
  intros s w'. apply exec_stmt_keeps_emitter.
  intros target a w''. apply emit_restores_emitter.
Qed.

(** No method of the module reassigns the owner of a dispatcher: callbacks
    that reach the dispatchers only through [emit] leave every owner as they
    found it. *)
Lemma emit_loop_keeps_owner {U}
    (invoke : PyValue -> list PyValue -> M (World U) unit) (owned : nat) :
  keeps_owner owned invoke ->
  forall fuel self args i rem (w : World U),
    instance (instances (snd (emit_loop invoke fuel self args i rem w)) owned)
    = instance (instances w owned).
Proof.
  intros Ho. induction fuel as [|fuel IH]; intros self args i rem w; [reflexivity|].
  rewrite emit_loop_step.
  destruct (nth_error (_slots (instances w self)) i) as [[slot max_args]|];
    [|reflexivity].
  destruct (negb (well_formed_slot slot)); [reflexivity|].
  destruct (is_dead w slot); [apply IH|].
  unfold bind, call.
  destruct (callable (resolve w slot)); [|reflexivity].
  pose proof (Ho (resolve w slot) (slice_to args max_args) w) as H1.
  destruct (invoke (resolve w slot) (slice_to args max_args) w) as [[[]| |] w1];
    cbn [snd] in *; try exact H1.
  now rewrite IH.
Qed.

Lemma on_instance_disconnect_keeps_owner {U} (alive_ : ObjId -> bool)
    (equal : ObjId -> ObjId -> bool) (self owned : nat) (slot : PyValue)
    (w : World U) :
  instance (instances (snd (on_instance self
                              (disconnect alive_ equal (Some slot) true) w)) owned)
  = instance (instances w owned).
Proof.
  unfold on_instance.
  destruct (_normalize_slot slot) as [normed|e|] eqn:Hn.
  - rewrite (disconnect_remove_first _ _ _ _ _ Hn). cbn.
    destruct (Nat.eqb owned self) eqn:E; [|reflexivity].
    apply Nat.eqb_eq in E. now subst.
  - rewrite (disconnect_raises _ _ _ _ _ _ Hn). cbn.
    destruct (Nat.eqb owned self) eqn:E; [|reflexivity].
    apply Nat.eqb_eq in E. now subst.
  - now elim (normalize_slot_terminates slot).
Qed.

Lemma emit_keeps_owner {U} (equal : ObjId -> ObjId -> bool)
    (invoke : PyValue -> list PyValue -> M (World U) unit) (owned : nat) :
  keeps_owner owned invoke ->
  forall fuel self args (w : World U),
    instance (instances (snd (emit equal invoke fuel self args w)) owned)
    = instance (instances w owned).
Proof.
  intros Ho fuel self args w.
  unfold emit. unfold bind at 1, get. cbn beta iota.
  destruct (_is_blocked (instances w self)); [reflexivity|].
  unfold bind, _emitting, try_finally.
  pose proof (emit_loop_keeps_owner invoke owned Ho fuel self args 0%nat []
                (set_current_emitter (Some self) w)) as H1.
  destruct (emit_loop invoke fuel self args 0 []
              (set_current_emitter (Some self) w)) as [[rem| |] w1];
    cbn [snd] in *; try exact H1.
  rewrite (for_each_keeps (fun w : World U => instance (instances w owned)));
    [exact H1|].
  intros x w0. apply on_instance_disconnect_keeps_owner.
Qed.

Lemma run_callback_keeps_owner (equal : ObjId -> ObjId -> bool)
    (code : PyValue -> list Stmt) (fuel : nat) (owned : nat) :
  forall depth, keeps_owner owned (run_callback equal code fuel depth).
Proof.
  induction depth as [|depth IH]; intros cb args w; [reflexivity|].
  cbn [run_callback].
  apply (for_each_keeps (fun w : World Journal => instance (instances w owned))).
  intros [|target a|target a|e] w0; cbn [exec_stmt]; try reflexivity.
  - apply (emit_keeps_owner equal _ owned IH).
  - pose proof (emit_keeps_owner equal _ owned IH fuel target a w0) as H1.
    destruct (emit equal (run_callback equal code fuel depth) fuel target a w0)
      as [[[]| |] w1]; exact H1.
Qed.

(** A subscriber that looks inside the emission of [self] sees [self] and
    its owner. *)
Lemma observing_told (invoke : PyValue -> list PyValue -> M (World Journal) unit)
    (self : nat) (cb : PyValue) (args : list PyValue) (w : World Journal) :
  _current_emitter w = Some self ->
  observing invoke cb args w
  = told self (instance (instances w self)) invoke cb args w.
Proof.
  intros H. unfold observing, told, bind, modify, record, note,
    current_emitter, sender.
  now rewrite H.
Qed.

(** Inside the emission of [self], subscribers that look see what they
    would be told: the loop of [emit] with the ones is the loop with the
    others. *)
Lemma emit_loop_observing
    (invoke : PyValue -> list PyValue -> M (World Journal) unit)
    (self : nat) (owner : option ObjId) (args : list PyValue) :
  keeps_emitter invoke ->
  keeps_owner self invoke ->
  forall fuel i rem (w : World Journal),
    _current_emitter w = Some self ->
    instance (instances w self) = owner ->
    emit_loop (observing invoke) fuel self args i rem w
    = emit_loop (told self owner invoke) fuel self args i rem w.
Proof.
  intros Hk Ho. induction fuel as [|fuel IH]; intros i rem w He Hw; [reflexivity|].
  rewrite !emit_loop_step.
  destruct (nth_error (_slots (instances w self)) i) as [[slot max_args]|];
    [|reflexivity].
  destruct (negb (well_formed_slot slot)); [reflexivity|].
  destruct (is_dead w slot); [now apply IH|].
  unfold bind, call.
  destruct (callable (resolve w slot)); [|reflexivity].
  rewrite (observing_told invoke self _ _ w He), Hw.
  pose proof (Hk (resolve w slot) (slice_to args max_args)
                 (note (mkObservation (Some self) owner (slice_to args max_args)) w))
    as Hk1.
  pose proof (Ho (resolve w slot) (slice_to args max_args)
                 (note (mkObservation (Some self) owner (slice_to args max_args)) w))
    as Ho1.
  unfold told, bind, modify.
  destruct (invoke (resolve w slot) (slice_to args max_args)
              (note (mkObservation (Some self) owner (slice_to args max_args)) w))
    as [[[]| |] w1]; try reflexivity.
  cbn [snd] in Hk1, Ho1. apply IH.
  - rewrite Hk1. exact He.
  - rewrite Ho1. exact Hw.
Qed.

Lemma emit_observing (equal : ObjId -> ObjId -> bool)
    (invoke : PyValue -> list PyValue -> M (World Journal) unit)
    (fuel self : nat) (args : list PyValue) (w : World Journal) :
  keeps_emitter invoke ->
  keeps_owner self invoke ->
  emit equal (observing invoke) fuel self args w
  = emit equal (told self (instance (instances w self)) invoke) fuel self args w.
Proof.
  intros Hk Ho. unfold emit. unfold bind at 1 3, get. cbn beta iota.
  destruct (_is_blocked (instances w self)); [reflexivity|].
  unfold bind, _emitting, try_finally.
  now rewrite (emit_loop_observing invoke self (instance (instances w self)) args Hk Ho).
Qed.

(** What subscribers that do nothing but write what they are told leave in
    the journal: one observation each, in order. *)
Lemma for_each_told_idle
    (invoke : PyValue -> list PyValue -> M (World Journal) unit)
    (self : nat) (owner : option ObjId) (w0 : World Journal) (args : list PyValue) :
  idle invoke ->
  forall (slots : list StoredSlot) (w : World Journal),
    (forall s, In s slots -> callable (resolve w0 (fst s)) = true) ->
    for_each slots (invoke_slot (told self owner invoke) w0 args) w
    = (Ret tt,
       mkWorld (instances w) (_current_emitter w) (alive w) (attrs w)
         (user w ++ map (fun s => mkObservation (Some self) owner
                                    (slice_to args (snd s))) slots)).
Proof.
  intros Hi. induction slots as [|s slots IH]; intros w Hc.
  - cbn. rewrite app_nil_r. now destruct w.
  - cbn [for_each map]. unfold bind, invoke_slot at 1, call.
    rewrite (Hc s (or_introl eq_refl)).
    unfold told, bind, modify. rewrite Hi.
    rewrite IH by (intros x Hx; apply Hc; now right).
    unfold note. cbn [instances _current_emitter alive attrs user].
    now rewrite <- app_assoc.
Qed.

Lemma told_idle_stable
    (invoke : PyValue -> list PyValue -> M (World Journal) unit)
    (self emitter : nat) (owner : option ObjId) :
  idle invoke -> stable self (told emitter owner invoke).
Proof.
  intros Hi cb args w. unfold told, bind, modify. rewrite Hi. repeat split.
Qed.

(** C6: let the emitter context name [S1] (a subscriber of [S1] is running)
    and let an emission start on [S2], which may be [S1] itself.  However it
    ends, by returning or by raising, [current_emitter()] is [S1] again
    afterwards, and [sender()] the owner of [S1].  While it runs, every
    subscriber of [S2] that it calls is entered with [current_emitter()]
    being [S2] and [sender()] being the owning instance of [S2]: with
    subscribers that write in a journal what the two calls return, whatever
    they do next, the emission is the one with subscribers that write [S2]
    and its owner instead (provided they leave the owner of [S2] alone and
    change the context through [emit] only).  And the subscribers are
    entered: on a dispatcher [S2] that is not blocked and has no dead
    reference, with subscribers that do nothing else, the journal has gained
    exactly one such observation for each subscription of [S2], in order,
    when [emit] returns. *)
Theorem nested_emit_context :
  forall equal (invoke : PyValue -> list PyValue -> M (World Journal) unit)
         fuel S1 S2 args (w : World Journal),
    current_emitter w = Some S1 ->
    (forall r w',
       emit equal (observing invoke) fuel S2 args w = (r, w') ->
       current_emitter w' = Some S1 /\ sender w' = instance (instances w' S1)) /\
    (keeps_emitter invoke -> keeps_owner S2 invoke ->
     emit equal (observing invoke) fuel S2 args w
     = emit equal (told S2 (instance (instances w S2)) invoke) fuel S2 args w) /\
    (idle invoke ->
     _is_blocked (instances w S2) = false ->
     (forall s, In s (_slots (instances w S2)) ->
        well_formed_slot (fst s) = true /\ is_dead w (fst s) = false /\
        callable (resolve w (fst s)) = true) ->
     (List.length (_slots (instances w S2)) < fuel)%nat ->
     emit equal (observing invoke) fuel S2 args w
     = (Ret tt,
        mkWorld (instances w) (Some S1) (alive w) (attrs w)
          (user w ++
           map (fun s => mkObservation (Some S2) (instance (instances w S2))
                           (slice_to args (snd s)))
               (_slots (instances w S2))))).
Proof.
  intros equal invoke fuel S1 S2 args w Hw. split; [|split].
  - intros r w' He.
    pose proof (emit_restores_emitter equal (observing invoke) fuel S2 args w) as Hr.
    rewrite He in Hr. cbn [snd] in Hr.
    unfold current_emitter, sender in *. rewrite Hr, Hw. now split.
  - apply emit_observing.
  - intros Hi Hb Hslots Hfuel.
    rewrite emit_observing;
      [|intros cb a w0; now rewrite Hi|intros cb a w0; now rewrite Hi].
    rewrite emit_all_live;
      [|exact Hb|now apply told_idle_stable
       |intros s Hs; split; apply (Hslots s Hs)|exact Hfuel].
    unfold _emitting, try_finally.
    rewrite (for_each_told_idle invoke S2 _ w args Hi)
      by (intros s Hs; apply (Hslots s Hs)).
    unfold current_emitter in Hw. cbn. now rewrite Hw.
Qed.

(** Inside the emission of dispatcher 1, an emission on dispatcher 2: its
    subscriber sees dispatcher 2 and its owner, object 12, and dispatcher 1
    is current again afterwards. *)
Lemma nested_emit_context_witness :
  emit same_object (observing nothing) 5 2 []
       (set_current_emitter (Some 1%nat) two_dispatchers)
  = (Ret tt,
     mkWorld (instances two_dispatchers) (Some 1%nat) (alive two_dispatchers)
       (attrs two_dispatchers)
       [mkObservation (Some 2%nat) (Some 12%nat) []]) /\
  emit same_object (observing nothing) 5 2 []
       (set_current_emitter (Some 1%nat) two_dispatchers)
  = emit same_object (told 2 (Some 12%nat) nothing) 5 2 []
         (set_current_emitter (Some 1%nat) two_dispatchers) /\
  forall r w',
    emit same_object (observing nothing) 5 2 []
         (set_current_emitter (Some 1%nat) two_dispatchers) = (r, w') ->
    current_emitter w' = Some 1%nat /\ sender w' = instance (instances w' 1).
Proof.
  destruct (nested_emit_context same_object nothing 5 1 2 []
              (set_current_emitter (Some 1%nat) two_dispatchers) eq_refl)
    as (Hafter & Hduring & Hjournal).
  split; [|split; [|exact Hafter]].
  - apply Hjournal.
    + intros cb args w. reflexivity.
    + reflexivity.
    + intros s [<-|[]]. repeat split.
    + simpl. lia.
  - apply Hduring; intros cb args w; reflexivity.
Defined.

(** The same with subscribers that emit and raise: those of
    [two_dispatchers_code] change the context through [emit] only and leave
    the owners alone, so that, looking on entry, they see the dispatcher
    that is emitting and its owner, at every depth of nesting. *)
Example scripted_subscribers_see_emitter :
  forall fuel depth S2 args (w : World Journal),
    emit same_object
         (observing (run_callback same_object two_dispatchers_code fuel depth))
         fuel S2 args w
    = emit same_object
           (told S2 (instance (instances w S2))
                 (run_callback same_object two_dispatchers_code fuel depth))
           fuel S2 args w.
Proof.
  intros fuel depth S2 args w.
  apply emit_observing.
  - apply run_callback_keeps_emitter.
  - apply run_callback_keeps_owner.
Qed.

(** What the subscribers see: emitting on dispatcher 1 calls its subscriber,
    which sees dispatcher 1 and its owner 11, emits on dispatcher 2, whose
    subscriber sees dispatcher 2 and its owner 12 and raises, and then sees
    dispatcher 1 and 11 again; afterwards no emitter is current.  Started
    inside an emission of dispatcher 1, the emissions on 2 and on 1 itself
    leave dispatcher 1 current. *)
Example nested_emission_journal :
  emit same_object (run_callback same_object two_dispatchers_code 5 5) 5 1 []
       two_dispatchers
  = (Ret tt,
     mkWorld (instances two_dispatchers) None (alive two_dispatchers)
       (attrs two_dispatchers)
       [mkObservation (Some 1%nat) (Some 11%nat) [];
        mkObservation (Some 2%nat) (Some 12%nat) [];
        mkObservation (Some 1%nat) (Some 11%nat) []]) /\
  fst (emit same_object (run_callback same_object two_dispatchers_code 5 5) 5 2 []
         (set_current_emitter (Some 1%nat) two_dispatchers))
  = Exc (Exception (Text "boom")) /\
  current_emitter
    (snd (emit same_object (run_callback same_object two_dispatchers_code 5 5) 5 2 []
            (set_current_emitter (Some 1%nat) two_dispatchers)))
  = Some 1%nat /\
  user (snd (emit same_object (run_callback same_object two_dispatchers_code 5 5)
               5 1 []
               (set_current_emitter (Some 1%nat) two_dispatchers)))
  = [mkObservation (Some 1%nat) (Some 11%nat) [];
     mkObservation (Some 2%nat) (Some 12%nat) [];
     mkObservation (Some 1%nat) (Some 11%nat) []] /\
  current_emitter
    (snd (emit same_object (run_callback same_object two_dispatchers_code 5 5)
            5 1 []
            (set_current_emitter (Some 1%nat) two_dispatchers)))
  = Some 1%nat.
Proof. repeat split; vm_compute; reflexivity. Qed.

(* ================================================================= *)
(** * Further properties of the module *)

(** ** Signatures and types *)

Lemma posarg_range_loop_allowed (params : list PyParameter) :
  forall required optional,
    posarg_range_loop false params required optional =
    Ret (required + required_posargs params,
         required + required_posargs params
         + (optional + optional_posargs params)).
Proof.
  induction params as [|p rest IH]; intros required optional.
  - simpl. do 2 f_equal; lia.
  - cbn [posarg_range_loop required_posargs optional_posargs].
    unfold is_positional, has_default.
    destruct (kind p), (default p); cbn [andb negb];
      rewrite IH; do 2 f_equal; lia.
Qed.

Lemma acceptable_posarg_range_any (sig : Signature) (forbid_required_kwarg : bool) :
  _acceptable_posarg_range sig forbid_required_kwarg
  = (if forbid_required_kwarg && has_required_kwonly sig
     then Exc (ValueError RequiredKeywordOnly)
     else Ret (required_posargs sig,
               required_posargs sig + optional_posargs sig)).
Proof.
  destruct forbid_required_kwarg; cbn [andb].
  - apply acceptable_posarg_range_spec.
  - unfold _acceptable_posarg_range. rewrite posarg_range_loop_allowed.
    do 2 f_equal; lia.
Qed.

(** [_acceptable_posarg_range] returns the number of positional parameters
    without default, and that number plus one for each positional parameter
    with a default and 10^10 for [*args]; it raises, only when asked to forbid
    them, exactly on a keyword-only parameter without default; the minimum
    is never negative and never above the maximum. *)
Theorem acceptable_posarg_range_counts :
  forall (sig : Signature) (forbid_required_kwarg : bool),
    _acceptable_posarg_range sig forbid_required_kwarg
    = (if forbid_required_kwarg && has_required_kwonly sig
       then Exc (ValueError RequiredKeywordOnly)
       else Ret (required_posargs sig,
                 required_posargs sig + optional_posargs sig)) /\
    0 <= required_posargs sig <= required_posargs sig + optional_posargs sig.
Proof.
  intros sig forbid. split; [apply acceptable_posarg_range_any|].
  pose proof (required_posargs_nonneg sig).
  pose proof (optional_posargs_nonneg sig). lia.
Qed.

Lemma var_positional_optional (sig : Signature) :
  In VAR_POSITIONAL (map kind sig) -> 10 ^ 10 <= optional_posargs sig.
Proof.
  induction sig as [|p rest IH]; intros H; [destruct H|].
  cbn [optional_posargs]. pose proof (optional_posargs_nonneg rest) as Hn.
  destruct H as [H|H].
  - unfold is_positional. rewrite H. cbn [andb]. lia.
  - specialize (IH H).
    destruct (is_positional p && has_default p); [lia|].
    destruct (kind p); lia.
Qed.

(** A callback with [*args] is never given fewer arguments than were
    emitted: for its max-arity [maxargs], [args[:maxargs]] is [args] (for up
    to 10^10 arguments). *)
Theorem var_positional_receives_all :
  forall (sig : Signature) (minargs maxargs : Z) (args : list PyValue),
    In VAR_POSITIONAL (map kind sig) ->
    _acceptable_posarg_range sig true = Ret (minargs, maxargs) ->
    len args <= 10 ^ 10 ->
    slice_to args maxargs = args.
Proof.
  intros sig minargs maxargs args Hvar Hrange Hlen.
  rewrite acceptable_posarg_range_spec in Hrange.
  destruct (has_required_kwonly sig); [discriminate|].
  injection Hrange as <- <-.
  apply slice_to_all.
  pose proof (var_positional_optional sig Hvar).
  pose proof (required_posargs_nonneg sig). lia.
Qed.

Lemma var_positional_receives_all_witness :
  slice_to [PyInt 1; PyInt 2; PyInt 3] 10000000001 = [PyInt 1; PyInt 2; PyInt 3].
Proof.
  apply (var_positional_receives_all
           [positional "first"; mkParameter "args" VAR_POSITIONAL None (Cls _empty)]
           1 10000000001 [PyInt 1; PyInt 2; PyInt 3]).
  - right. left. reflexivity.
  - reflexivity.
  - vm_compute. discriminate.
Defined.

Lemma build_parameters_shape (types : list Annotation) :
  forall i,
    map annotation (build_parameters i types) = types /\
    (forall p, In p (build_parameters i types) ->
       kind p = POSITIONAL_ONLY /\ default p = None) /\
    required_posargs (build_parameters i types) = len types /\
    optional_posargs (build_parameters i types) = 0 /\
    has_required_kwonly (build_parameters i types) = false.
Proof.
  induction types as [|t rest IH]; intros i.
  - split; [reflexivity|]. split; [intros q []|]. repeat split.
  - destruct (IH (S i)) as (Ha & Hk & Hr & Ho & Hq).
    cbn [build_parameters map required_posargs optional_posargs].
    split; [now rewrite Ha|].
    split; [intros q [<-|Hin]; [now split|now apply Hk]|].
    split; [rewrite Hr, len_cons; reflexivity|].
    split; [rewrite Ho; reflexivity|].
    unfold has_required_kwonly in *. cbn [existsb]. now rewrite Hq.
Qed.

(** [Signal._build_signature( *types)] gives one parameter for each type, in
    order and annotated with it, all positional-only and without default:
    a callback must be callable with exactly that many positional arguments
    at most, and the signature itself requires and accepts exactly
    [len(types)]. *)
Theorem build_signature_shape :
  forall (types : list Annotation) (forbid_required_kwarg : bool),
    map annotation (_build_signature types) = types /\
    (forall p, In p (_build_signature types) ->
       kind p = POSITIONAL_ONLY /\ default p = None) /\
    len (_build_signature types) = len types /\
    _acceptable_posarg_range (_build_signature types) forbid_required_kwarg
    = Ret (len types, len types).
Proof.
  intros types forbid.
  destruct (build_parameters_shape types 0) as (Ha & Hk & Hr & Ho & Hq).
  split; [exact Ha|]. split; [exact Hk|].
  split; [apply len_build_signature|].
  rewrite acceptable_posarg_range_any.
  unfold _build_signature. rewrite Hq, Hr, Ho, andb_false_r.
  do 2 f_equal. lia.
Qed.

Lemma any_issubclass_classes (issubclass : PyClass -> PyClass -> bool)
    (cs : list PyClass) (r : PyClass) :
  any_issubclass issubclass (map Cls cs) (Cls r)
  = Ret (existsb (fun c => issubclass c r) cs).
Proof.
  induction cs as [|c cs IH]; [reflexivity|].
  cbn [map any_issubclass py_issubclass res_bind existsb].
  destruct (issubclass c r); [reflexivity|exact IH].
Qed.

(** [_is_subclass(left, right)] against a class [right]: for a class it is
    [issubclass]; for a [Union] of classes it holds when some member is a
    subclass (never for the empty union); and for anything else that is not
    a class it raises [TypeError]. *)
Theorem is_subclass_cases :
  forall (issubclass : PyClass -> PyClass -> bool) (a r : PyClass)
         (cs : list PyClass),
    _is_subclass issubclass (Cls a) (Cls r) = Ret (issubclass a r) /\
    _is_subclass issubclass (UnionOf (map Cls cs)) (Cls r)
    = Ret (existsb (fun c => issubclass c r) cs) /\
    (forall left,
       isclass left = false -> (forall args, left <> UnionOf args) ->
       _is_subclass issubclass left (Cls r) = Exc (TypeError NotAClass)).
Proof.
  intros issubclass a r cs. repeat split.
  - apply any_issubclass_classes.
  - intros left Hc Hu. destruct left; try reflexivity; try discriminate.
    now elim (Hu args).
Qed.

(** ** connect, disconnect, membership *)

Lemma normalize_slot_idempotent (slot : PyValue) :
  (normed <~ _normalize_slot slot ;; _normalize_slot normed) = _normalize_slot slot.
Proof. now destruct slot. Qed.

(** Membership returns a truth value, or raises what normalization
    raises. *)
Lemma contains_cases (alive : ObjId -> bool) (equal : ObjId -> ObjId -> bool)
    (self : SignalInstance) (slot : PyValue) :
  (exists normed b,
     _normalize_slot slot = Ret normed /\
     contains alive equal self slot = Ret b) \/
  (exists e,
     _normalize_slot slot = Exc e /\ contains alive equal self slot = Exc e).
Proof.
  destruct (_normalize_slot slot) as [normed|e|] eqn:Hn.
  - left. exists normed. rewrite (contains_normalized _ _ _ _ _ Hn). eauto.
  - right. exists e. rewrite (contains_raises _ _ _ _ _ Hn). auto.
  - now elim (normalize_slot_terminates slot).
Qed.

Section ConnectFurther.

Variable issubclass : PyClass -> PyClass -> bool.
Variable get_type_hints : PyValue -> Res (list (string * Annotation)).
Variable alive : ObjId -> bool.
Variable equal : ObjId -> ObjId -> bool.

(** The state after [connect], whatever its result: as before, or with
    one subscription more. *)
Lemma connect_state slot check_types unique self r self' :
  connect issubclass get_type_hints alive equal slot check_types unique self
  = (r, self') ->
  (self' = self /\
   (r = Ret tt -> unique_and_contains alive equal unique self slot = Ret true)) \/
  (r = Ret tt /\ callable slot = true /\
   unique_and_contains alive equal unique self slot = Ret false /\
   exists slot_sig minargs maxargs normed,
     signature slot = Ret slot_sig /\
     _acceptable_posarg_range slot_sig true = Ret (minargs, maxargs) /\
     _normalize_slot slot = Ret normed /\
     self' = set_slots self (_slots self ++ [(normed, maxargs)])).
Proof.
  intros H.
  destruct (callable slot) eqn:Ecall;
    [|rewrite connect_non_callable in H by exact Ecall;
      injection H as <- <-; left; split; [reflexivity|discriminate]].
  destruct (unique_and_contains_cases alive equal unique self slot)
    as [[[|] Eu]|(e' & Eu & _)].
  - rewrite connect_duplicate in H by assumption.
    destruct (eq_str unique "raise"); injection H as <- <-; left; now split.
  - rewrite connect_unfold in H by assumption.
    destruct (signature slot) as [slot_sig| |] eqn:Esig;
      try (injection H as <- <-; left; split; [reflexivity|discriminate]).
    destruct (match_signature issubclass get_type_hints slot check_types slot_sig
                (signatures self) (sorted_reverse (signatures self) len) [])
      as [maxargs| |] eqn:Em;
      try (injection H as <- <-; left; split; [reflexivity|discriminate]).
    destruct (_normalize_slot slot) as [normed| |] eqn:En;
      try (injection H as <- <-; left; split; [reflexivity|discriminate]).
    injection H as <- <-. right.
    destruct (match_signature_ret _ _ _ _ _ _ _ _ _ Em)
      as (before & spec & after & _ & Hspec & _).
    destruct (try_spec_ret _ _ _ _ _ _ _ Hspec) as (minargs & Hrange & _).
    split; [reflexivity|]. split; [reflexivity|]. split; [exact Eu|].
    exists slot_sig, minargs, maxargs, normed. now repeat split.
  - rewrite (connect_test_raises _ _ _ _ _ _ _ _ _ Ecall Eu) in H.
    injection H as <- <-. left. split; [reflexivity|discriminate].
Qed.

(** Without type checks, the loop over the signatures ends with the
    slot's maximum as soon as one signature is long enough, and with a
    [ValueError] otherwise. *)
Lemma match_signature_unchecked slot slot_sig accepted specs :
  forall errors,
    (has_required_kwonly slot_sig = false /\
     (exists spec, In spec specs /\ required_posargs slot_sig <= len spec) /\
     match_signature issubclass get_type_hints slot false slot_sig accepted specs errors
     = Ret (required_posargs slot_sig + optional_posargs slot_sig)) \/
    ((has_required_kwonly slot_sig = true \/
      forall spec, In spec specs -> len spec < required_posargs slot_sig) /\
     exists errors',
       match_signature issubclass get_type_hints slot false slot_sig accepted specs errors
       = Exc (ValueError (CannotConnect slot errors' accepted))).
Proof.
  induction specs as [|spec rest IH]; intros errors.
  - right. split; [right; intros spec []|]. cbn. eauto.
  - cbn [match_signature]. rewrite try_spec_unchecked.
    destruct (has_required_kwonly slot_sig) eqn:Ek.
    + destruct (IH (errors ++ [RequiredKeywordOnly])) as [(Hk & _)|(_ & He)];
        [discriminate|].
      right. split; [now left|exact He].
    + destruct (required_posargs slot_sig >? len spec) eqn:Eg.
      * rewrite Z.gtb_ltb in Eg. apply Z.ltb_lt in Eg.
        destruct (IH (errors ++ [TooFewSpecParams (required_posargs slot_sig) (len spec)]))
          as [(_ & (s & Hs & Hle) & Hm)|([Hk|Hall] & He)].
        -- left. repeat split; [|exact Hm]. exists s. split; [now right|exact Hle].
        -- discriminate.
        -- right. split; [|exact He]. right.
           intros s [<-|Hs]; [exact Eg|now apply Hall].
      * rewrite Z.gtb_ltb in Eg. apply Z.ltb_ge in Eg.
        left. repeat split. exists spec. split; [now left|exact Eg].
Qed.

(** With the default arguments, [connect] succeeds exactly for a callable
    with a signature, without required keyword-only parameter, whose
    required positional arguments fit one of the declared signatures (one
    match among the overloads is enough), and which has a normal form (if it
    is a bound method, its receiver can be weakly referenced). *)
Theorem connect_succeeds_iff :
  forall slot self,
    (exists self',
       connect issubclass get_type_hints alive equal slot false (PyBool false) self
       = (Ret tt, self')) <->
    (exists slot_sig spec normed,
       signature slot = Ret slot_sig /\
       has_required_kwonly slot_sig = false /\
       In spec (signatures self) /\
       required_posargs slot_sig <= len spec /\
       _normalize_slot slot = Ret normed).
Proof.
  intros slot self. split.
  - intros (self' & H).
    destruct (callable slot) eqn:Ecall;
      [|rewrite connect_non_callable in H by exact Ecall; discriminate].
    rewrite connect_unfold in H by (assumption || reflexivity).
    destruct (signature slot) as [slot_sig| |] eqn:Esig; try discriminate.
    destruct (match_signature_unchecked slot slot_sig (signatures self)
                (sorted_reverse (signatures self) len) [])
      as [(Hk & (spec & Hs & Hle) & Hm)|(_ & errors' & He)].
    + rewrite Hm in H.
      destruct (_normalize_slot slot) as [normed| |] eqn:En; try discriminate.
      exists slot_sig, spec, normed. repeat split; auto.
      now apply sorted_reverse_In in Hs.
    + rewrite He in H. discriminate.
  - intros (slot_sig & spec & normed & Hsig & Hk & Hs & Hle & Hn).
    pose proof (signature_callable _ _ Hsig) as Hcall.
    rewrite connect_unfold by (assumption || reflexivity). rewrite Hsig.
    destruct (match_signature_unchecked slot slot_sig (signatures self)
                (sorted_reverse (signatures self) len) [])
      as [(_ & _ & ->)|([Hk'|Hall] & _)].
    + rewrite Hn. eauto.
    + congruence.
    + apply (sorted_reverse_In (signatures self) len) in Hs.
      specialize (Hall spec Hs). lia.
Qed.

(** Without type checks, [connect] raises the [TypeError] "Cannot connect
    to non-callable object" for a target that is not callable (tuples
    included, which [disconnect] accepts); for a callable with a normal
    form, it returns or raises a [ValueError]; and for a callable without
    (a bound method whose receiver cannot be weakly referenced), it never
    returns: it raises a [ValueError] or the [TypeError] of
    [weakref.ref]. *)
Theorem connect_errors :
  forall slot unique self,
    (callable slot = false ->
     forall check_types,
       connect issubclass get_type_hints alive equal slot check_types unique self
       = (Exc (TypeError (NonCallable slot)), self)) /\
    (callable slot = true ->
     forall normed, _normalize_slot slot = Ret normed ->
       fst (connect issubclass get_type_hints alive equal slot false unique self)
       = Ret tt \/
       exists m,
         fst (connect issubclass get_type_hints alive equal slot false unique self)
         = Exc (ValueError m)) /\
    (callable slot = true ->
     forall e, _normalize_slot slot = Exc e ->
       (exists receiver, e = TypeError (CannotWeakref receiver)) /\
       (fst (connect issubclass get_type_hints alive equal slot false unique self)
        = Exc e \/
        exists m,
          fst (connect issubclass get_type_hints alive equal slot false unique self)
          = Exc (ValueError m))).
Proof.
  intros slot unique self.
  assert (Hmain : callable slot = true ->
            unique_and_contains alive equal unique self slot = Ret false ->
            exists slot_sig,
              (signature slot = Exc (ValueError (NoSignature slot)) /\
               fst (connect issubclass get_type_hints alive equal slot false unique self)
               = Exc (ValueError (NoSignature slot))) \/
              (signature slot = Ret slot_sig /\
               ((exists m,
                   fst (connect issubclass get_type_hints alive equal slot false unique self)
                   = Exc (ValueError m)) \/
                connect issubclass get_type_hints alive equal slot false unique self
                = match _normalize_slot slot with
                  | Ret normed =>
                      (Ret tt,
                       set_slots self
                         (_slots self ++
                          [(normed,
                            required_posargs slot_sig + optional_posargs slot_sig)]))
                  | Exc e => (Exc e, self)
                  | OutOfFuel => (OutOfFuel, self)
                  end))).
  { intros Hc Eu. rewrite connect_unfold by assumption.
    destruct (signature slot) as [slot_sig|e|] eqn:Esig.
    - exists slot_sig. right. split; [reflexivity|].
      destruct (match_signature_unchecked slot slot_sig (signatures self)
                  (sorted_reverse (signatures self) len) [])
        as [(_ & _ & ->)|(_ & errors' & ->)];
        [right; reflexivity|left; eexists; reflexivity].
    - exists []. left.
      destruct slot as [? [?|]|? ? [?|]| | | | |? ? [?|]|];
        try discriminate; cbn in Esig; injection Esig as <-; now split.
    - destruct slot as [? [?|]|? ? [?|]| | | | |? ? [?|]|]; discriminate. }
  split; [|split].
  - intros Hc check_types. now apply connect_non_callable.
  - intros Hc normed Hn.
    destruct (unique_and_contains_cases alive equal unique self slot)
      as [[[|] Eu]|(e' & _ & He & _)]; [| |congruence].
    + rewrite connect_duplicate by assumption.
      destruct (eq_str unique "raise");
        [right; eexists; reflexivity|left; reflexivity].
    + destruct (Hmain Hc Eu) as (slot_sig & [(_ & ->)|(_ & [Hv| ->])]).
      * right. eexists; reflexivity.
      * now right.
      * rewrite Hn. now left.
  - intros Hc e Hn.
    split; [destruct (normalize_slot_raises _ _ Hn) as (obj & -> & _); eauto|].
    destruct (unique_and_contains_cases alive equal unique self slot)
      as [[[|] Eu]|(e' & Eu & He & _)].
    + unfold unique_and_contains in Eu. destruct (truthy unique); [|discriminate].
      rewrite (contains_raises _ _ _ _ _ Hn) in Eu. discriminate.
    + destruct (Hmain Hc Eu) as (slot_sig & [(_ & ->)|(_ & [Hv| ->])]).
      * right. eexists; reflexivity.
      * now right.
      * rewrite Hn. now left.
    + rewrite (connect_test_raises _ _ _ _ _ _ _ _ _ Hc Eu).
      left. cbn [fst]. congruence.
Qed.

(** Type checks only restrict: a [connect] that succeeds with
    [check_types=True] succeeds with [check_types=False] too, and leaves the
    same dispatcher. *)
Theorem connect_checked_then_unchecked :
  forall slot unique self self',
    connect issubclass get_type_hints alive equal slot true unique self
    = (Ret tt, self') ->
    connect issubclass get_type_hints alive equal slot false unique self
    = (Ret tt, self').
Proof.
  intros slot unique self self' H.
  destruct (callable slot) eqn:Ecall;
    [|rewrite connect_non_callable in H by exact Ecall; discriminate].
  destruct (unique_and_contains_cases alive equal unique self slot)
    as [[[|] Eu]|(e' & Eu & _)].
  - rewrite connect_duplicate in * by assumption. exact H.
  - rewrite connect_unfold in * by assumption.
    destruct (signature slot) as [slot_sig| |] eqn:Esig; try discriminate.
    destruct (match_signature issubclass get_type_hints slot true slot_sig
                (signatures self) (sorted_reverse (signatures self) len) [])
      as [maxargs| |] eqn:Em; try discriminate.
    destruct (match_signature_ret _ _ _ _ _ _ _ _ _ Em)
      as (before & spec & after & Hsplit & Hspec & _).
    destruct (try_spec_ret _ _ _ _ _ _ _ Hspec) as (minargs & Hrange & Hmin).
    rewrite acceptable_posarg_range_spec in Hrange.
    destruct (has_required_kwonly slot_sig) eqn:Ek; [discriminate|].
    injection Hrange as <- <-.
    destruct (match_signature_unchecked slot slot_sig (signatures self)
                (sorted_reverse (signatures self) len) [])
      as [(_ & _ & ->)|([Hk'|Hall] & _)].
    + exact H.
    + congruence.
    + assert (Hin : In spec (sorted_reverse (signatures self) len))
        by (rewrite Hsplit; apply in_or_app; right; now left).
      specialize (Hall spec Hin). lia.
  - rewrite (connect_test_raises _ _ _ _ _ _ _ _ _ Ecall Eu) in H. discriminate.
Qed.

End ConnectFurther.

Lemma connect_checked_then_unchecked_witness :
  connect same_class no_hints all_alive same_object
    (Function 5 (Some [mkParameter "x" POSITIONAL_OR_KEYWORD None (Cls int)]))
    false (PyBool false) int_channel
  = (Ret tt,
     with_slots
       [(Function 5 (Some [mkParameter "x" POSITIONAL_OR_KEYWORD None (Cls int)]), 1)]
       false).
Proof.
  apply (connect_checked_then_unchecked same_class no_hints all_alive same_object).
  reflexivity.
Defined.

(** The outcomes of [connect] on the channel declared with [(int,)]: of a
    function, of a number, of a function that requires too much, and of the
    method of an object that cannot be weakly referenced, for which the
    [unique] test already raises. *)
Example connect_outcomes :
  fst (connect same_class no_hints all_alive same_object g false (PyBool false)
         int_channel) = Ret tt /\
  fst (connect same_class no_hints all_alive same_object (PyInt 5) false
         (PyBool false) int_channel)
  = Exc (TypeError (NonCallable (PyInt 5))) /\
  fst (connect same_class no_hints all_alive same_object h false (PyBool false)
         int_channel)
  = Exc (ValueError (CannotConnect h [TooFewSpecParams 3 1]
                       [_build_signature [Cls int]])) /\
  fst (connect same_class no_hints all_alive same_object slotted_on_change false
         (PyBool false) int_channel)
  = Exc (TypeError (CannotWeakref 9%nat)) /\
  fst (connect same_class no_hints all_alive same_object slotted_on_change false
         (PyBool true) int_channel)
  = Exc (TypeError (CannotWeakref 9%nat)).
Proof. repeat split; vm_compute; reflexivity. Qed.

Lemma types_match_loop_unannotated
    (issubclass : PyClass -> PyClass -> bool)
    (get_type_hints : PyValue -> Res (list (string * Annotation)))
    (function : PyValue) (pairs : list (PyParameter * PyParameter)) :
  (forall pr, In pr pairs -> annotation (fst pr) = Cls _empty) ->
  forall func_hints,
    types_match_loop issubclass get_type_hints function func_hints pairs = Ret true.
Proof.
  induction pairs as [|[f_param spec_param] rest IH]; intros H func_hints;
    [reflexivity|].
  cbn [types_match_loop].
  pose proof (H (f_param, spec_param) (or_introl eq_refl)) as Hf.
  cbn [fst] in Hf. rewrite Hf.
  destruct (Annotation_eq_dec (Cls _empty) (Cls _empty)) as [_|Hne];
    [|now elim Hne].
  apply IH. intros pr Hpr. apply H. now right.
Qed.

Lemma match_signature_ext
    (issubclass : PyClass -> PyClass -> bool)
    (get_type_hints : PyValue -> Res (list (string * Annotation)))
    slot a b slot_sig accepted specs :
  (forall spec,
     try_spec issubclass get_type_hints slot a slot_sig spec
     = try_spec issubclass get_type_hints slot b slot_sig spec) ->
  forall errors,
    match_signature issubclass get_type_hints slot a slot_sig accepted specs errors
    = match_signature issubclass get_type_hints slot b slot_sig accepted specs errors.
Proof.
  intros H. induction specs as [|spec rest IH]; intros errors; [reflexivity|].
  cbn [match_signature]. rewrite H.
  destruct (try_spec issubclass get_type_hints slot b slot_sig spec)
    as [m|[e|e|e|e]|]; try reflexivity.
  apply IH.
Qed.

(** A callback without annotations passes every type check, whatever the
    declared types (and whatever [get_type_hints] would do): for it,
    [connect] with [check_types=True] is [connect] with
    [check_types=False]. *)
Theorem connect_unannotated :
  forall issubclass get_type_hints alive equal slot slot_sig unique self,
    signature slot = Ret slot_sig ->
    (forall p, In p slot_sig -> annotation p = Cls _empty) ->
    (forall spec,
       _parameter_types_match issubclass get_type_hints slot spec (Some slot_sig)
       = Ret true) /\
    connect issubclass get_type_hints alive equal slot true unique self
    = connect issubclass get_type_hints alive equal slot false unique self.
Proof.
  intros issubclass get_type_hints alive equal slot slot_sig unique self Hsig Hann.
  assert (Hm : forall spec,
             _parameter_types_match issubclass get_type_hints slot spec (Some slot_sig)
             = Ret true).
  { intros spec. unfold _parameter_types_match. cbn [res_bind].
    apply types_match_loop_unannotated.
    intros [fp sp] Hin. apply in_combine_l in Hin. now apply Hann. }
  split; [exact Hm|].
  pose proof (signature_callable _ _ Hsig) as Hcall.
  destruct (unique_and_contains_cases alive equal unique self slot)
    as [[[|] Eu]|(e' & Eu & _)].
  - now rewrite !connect_duplicate by assumption.
  - rewrite !connect_unfold by assumption. rewrite Hsig.
    rewrite (match_signature_ext issubclass get_type_hints slot true false);
      [reflexivity|].
    intros spec. unfold try_spec. rewrite Hm.
    now destruct (_acceptable_posarg_range slot_sig true) as [[mn mx]| |].
  - now rewrite !(connect_test_raises _ _ _ _ _ _ _ _ _ Hcall Eu).
Qed.

Lemma connect_unannotated_witness :
  (forall spec,
     _parameter_types_match same_class no_hints g spec (Some [positional "x"])
     = Ret true) /\
  connect same_class no_hints all_alive same_object g true (PyStr "raise")
          (with_slots [(f, 0)] false)
  = connect same_class no_hints all_alive same_object g false (PyStr "raise")
            (with_slots [(f, 0)] false).
Proof.
  apply (connect_unannotated same_class no_hints all_alive same_object g
           [positional "x"] (PyStr "raise") (with_slots [(f, 0)] false)).
  - reflexivity.
  - intros p [<-|[]]. reflexivity.
Defined.

(** The three spellings of a bound method, [obj.meth], [(obj, "meth")] and
    [(weakref.ref(obj), "meth")], are one callback for [in] and for
    [disconnect]; normalizing twice changes nothing. *)
Theorem bound_method_spellings :
  forall alive equal (o : ObjId) (n : string) (sig : option Signature)
         (slot : PyValue) (self : SignalInstance),
    (normed <~ _normalize_slot slot ;; _normalize_slot normed)
    = _normalize_slot slot /\
    contains alive equal self (ObjNamePair o n)
    = contains alive equal self (BoundMethod o n sig) /\
    contains alive equal self (RefNamePair o n)
    = contains alive equal self (BoundMethod o n sig) /\
    disconnect alive equal (Some (ObjNamePair o n)) true self
    = disconnect alive equal (Some (BoundMethod o n sig)) true self /\
    disconnect alive equal (Some (RefNamePair o n)) true self
    = disconnect alive equal (Some (BoundMethod o n sig)) true self.
Proof.
  intros alive equal o n sig slot self.
  split; [apply normalize_slot_idempotent|].
  repeat split; try reflexivity;
    now rewrite !(disconnect_remove_first _ _ _ _ (RefNamePair o n)).
Qed.

(** [_slot_index(slot)] raises what normalizing [slot] raises; otherwise it
    is -1 exactly when no stored callback equals the normalized [slot], and
    else the index, within the list, of the first subscription whose
    callback equals it.  [in] tells the two cases apart. *)
Theorem slot_index_bounds :
  forall alive equal (self : SignalInstance) (slot : PyValue),
    (forall e, _normalize_slot slot = Exc e ->
       _slot_index alive equal self slot = Exc e /\
       contains alive equal self slot = Exc e) /\
    (forall normed, _normalize_slot slot = Ret normed ->
       (_slot_index alive equal self slot = Ret (-1) /\
        contains alive equal self slot = Ret false /\
        forall s, In s (_slots self) -> slot_eq alive equal (fst s) normed = false) \/
       (exists idx,
          _slot_index alive equal self slot = Ret idx /\
          0 <= idx < SignalInstance__len__ self /\
          contains alive equal self slot = Ret true /\
          (exists s m,
             nth_error (_slots self) (Z.to_nat idx) = Some (s, m) /\
             slot_eq alive equal s normed = true) /\
          forall j s,
            (j < Z.to_nat idx)%nat ->
            nth_error (_slots self) j = Some s ->
            slot_eq alive equal (fst s) normed = false)).
Proof.
  intros alive equal self slot. split.
  - intros e Hn. unfold contains, _slot_index. now rewrite Hn.
  - intros normed Hn.
    unfold SignalInstance__len__, contains, _slot_index. rewrite Hn.
    cbn [res_bind].
    destruct (slot_index_from_bounds alive equal normed (_slots self) 0)
      as [Hm|Hb].
    + left. rewrite Hm. split; [reflexivity|]. split; [reflexivity|].
      apply slot_index_from_missing with (i := 0); lia.
    + right.
      destruct (slot_index_from_found alive equal normed (_slots self) 0)
        as (before & s & m & after & Heq & Hs & Hbefore & Hidx); [lia|lia|].
      exists (slot_index_from alive equal 0 normed (_slots self)).
      split; [reflexivity|]. split; [lia|].
      split; [f_equal; apply Z.geb_le; lia|].
      rewrite Hidx. cbn [Z.add]. unfold len. rewrite Nat2Z.id.
      rewrite Heq. split.
      * exists s, m. rewrite nth_error_app2 by lia.
        rewrite Nat.sub_diag. now split.
      * intros j x Hj Hx. rewrite nth_error_app1 in Hx by exact Hj.
        apply Hbefore. eapply nth_error_In, Hx.
Qed.

(** The cases on a list with the methods of objects 7 and 8: with receivers
    that compare by identity the method of object 8 is found at index 1, with
    receivers that are equal at index 0, and a method of an object that
    cannot be weakly referenced cannot be looked for. *)
Example slot_index_examples :
  _slot_index all_alive same_object
    (with_slots [(RefNamePair 7%nat "on_change", 1);
                 (RefNamePair 8%nat "on_change", 1)] false) on_change_8 = Ret 1 /\
  _slot_index all_alive all_equal
    (with_slots [(RefNamePair 7%nat "on_change", 1);
                 (RefNamePair 8%nat "on_change", 1)] false) on_change_8 = Ret 0 /\
  _slot_index all_alive same_object (with_slots [(f, 0)] false) g = Ret (-1) /\
  _slot_index all_alive same_object (with_slots [(f, 0)] false) slotted_on_change
  = Exc (TypeError (CannotWeakref 9%nat)) /\
  contains all_alive same_object (with_slots [(f, 0)] false) slotted_on_change
  = Exc (TypeError (CannotWeakref 9%nat)).
Proof. repeat split; vm_compute; reflexivity. Qed.


(** The three outcomes. *)
Example disconnect_outcomes_examples :
  disconnect all_alive same_object (Some f) false (with_slots [(f, 0); (g, 1)] false)
  = (Ret tt, with_slots [(g, 1)] false) /\
  disconnect all_alive same_object (Some h) false (with_slots [(f, 0); (g, 1)] false)
  = (Exc (ValueError (NotConnected h)), with_slots [(f, 0); (g, 1)] false) /\
  disconnect all_alive same_object (Some slotted_on_change) true
    (with_slots [(f, 0); (g, 1)] false)
  = (Exc (TypeError (CannotWeakref 9%nat)), with_slots [(f, 0); (g, 1)] false) /\
  disconnect all_alive same_object (Some (SlottedPair 9%nat "on_change")) true
    (with_slots [(f, 0); (g, 1)] false)
  = (Exc (TypeError (CannotWeakref 9%nat)), with_slots [(f, 0); (g, 1)] false).
Proof. repeat split; vm_compute; reflexivity. Qed.

Lemma contains_appended (alive : ObjId -> bool) (equal : ObjId -> ObjId -> bool)
    (self : SignalInstance) (slot normed : PyValue) (m : Z) :
  _normalize_slot slot = Ret normed ->
  contains alive equal (set_slots self (_slots self ++ [(normed, m)])) slot
  = Ret true.
Proof.
  intros Hn. apply contains_true. exists normed. split; [exact Hn|].
  exists (normed, m). split; [|apply slot_eq_refl].
  cbn [set_slots _slots]. apply in_or_app. right. now left.
Qed.

(** After a [connect] that returns, the callback is in the dispatcher, and
    [len] has grown by one, or by nothing when [unique] found the callback
    connected already. *)
Theorem connect_then_contains :
  forall issubclass get_type_hints alive equal slot check_types unique self self',
    connect issubclass get_type_hints alive equal slot check_types unique self
    = (Ret tt, self') ->
    contains alive equal self' slot = Ret true /\
    exists connected,
      unique_and_contains alive equal unique self slot = Ret connected /\
      SignalInstance__len__ self'
      = SignalInstance__len__ self + (if connected then 0 else 1).
Proof.
  intros issubclass get_type_hints alive equal slot check_types unique self self' H.
  destruct (connect_state _ _ _ _ _ _ _ _ _ _ H)
    as [[-> Hdup]|(_ & _ & Hu & slot_sig & mn & mx & normed & _ & _ & Hn & ->)].
  - specialize (Hdup eq_refl). split.
    + unfold unique_and_contains in Hdup.
      destruct (truthy unique); [exact Hdup|discriminate].
    + exists true. split; [exact Hdup|lia].
  - split; [now apply contains_appended|].
    exists false. split; [exact Hu|].
    unfold SignalInstance__len__. cbn [set_slots _slots].
    rewrite len_app. reflexivity.
Qed.

Lemma connect_then_contains_witness :
  contains all_alive same_object
    (with_slots [(f, 0); (RefNamePair 7%nat "on_change", 1)] false) on_change
  = Ret true /\
  exists connected,
    unique_and_contains all_alive same_object (PyBool true)
      (with_slots [(f, 0)] false) on_change = Ret connected /\
    SignalInstance__len__ (with_slots [(f, 0); (RefNamePair 7%nat "on_change", 1)] false)
    = SignalInstance__len__ (with_slots [(f, 0)] false)
      + (if connected then 0 else 1).
Proof.
  apply (connect_then_contains same_class no_hints all_alive same_object
           on_change false (PyBool true) (with_slots [(f, 0)] false)).
  reflexivity.
Defined.

(** Connecting a callback that was not connected and disconnecting it
    again gives back the dispatcher as it was. *)
Theorem connect_disconnect_round_trip :
  forall issubclass get_type_hints alive equal slot check_types unique missing_ok
         self self',
    contains alive equal self slot = Ret false ->
    connect issubclass get_type_hints alive equal slot check_types unique self
    = (Ret tt, self') ->
    disconnect alive equal (Some slot) missing_ok self' = (Ret tt, self).
Proof.
  intros issubclass get_type_hints alive equal slot check_types unique missing_ok
    self self' Hc H.
  destruct (connect_state _ _ _ _ _ _ _ _ _ _ H)
    as [[_ Hdup]|(_ & _ & _ & slot_sig & mn & mx & normed & _ & _ & Hn & ->)].
  - specialize (Hdup eq_refl). unfold unique_and_contains in Hdup.
    destruct (truthy unique); congruence.
  - destruct (disconnect_connected alive equal _ slot
                (contains_appended alive equal self slot normed mx Hn))
      as (normed' & before & s & m & after & _ & _ & _ & _ & Hd).
    rewrite Hd. rewrite <- (Hd true).
    rewrite (disconnect_remove_first _ _ _ _ _ Hn).
    cbn [set_slots _slots].
    apply contains_false in Hc as (normed0 & Hn0 & Hc).
    assert (normed0 = normed) by congruence. subst normed0.
    rewrite remove_first_split; [|exact Hc|apply slot_eq_refl].
    rewrite app_nil_r. now destruct self.
Qed.

Lemma connect_disconnect_round_trip_witness :
  disconnect all_alive same_object (Some on_change) false
    (with_slots [(f, 0); (RefNamePair 7%nat "on_change", 1)] false)
  = (Ret tt, with_slots [(f, 0)] false).
Proof.
  apply (connect_disconnect_round_trip same_class no_hints all_alive same_object
           on_change true (PyBool false) false (with_slots [(f, 0)] false));
    reflexivity.
Defined.

Lemma one_subscription (alive : ObjId -> bool) (equal : ObjId -> ObjId -> bool)
    (normed : PyValue) (m : Z) (slots : list StoredSlot) :
  (forall s, In s slots -> slot_eq alive equal (fst s) normed = false) ->
  List.length (subscriptions_of alive equal normed (slots ++ [(normed, m)])) = 1%nat.
Proof.
  induction slots as [|s rest IH]; intros H; unfold subscriptions_of in *.
  - cbn [app filter fst]. now rewrite slot_eq_refl.
  - cbn [app filter]. rewrite (H s (or_introl eq_refl)).
    apply IH. intros x Hx. apply H. now right.
Qed.

(** [connect(cb, unique=True)] is idempotent: from a dispatcher without
    [cb], the second call changes nothing and [cb] has exactly one
    subscription (and a call with [unique="raise"] then raises). *)
Theorem connect_unique_twice :
  forall issubclass get_type_hints alive equal slot check_types self self',
    contains alive equal self slot = Ret false ->
    connect issubclass get_type_hints alive equal slot check_types (PyBool true) self
    = (Ret tt, self') ->
    connect issubclass get_type_hints alive equal slot check_types (PyBool true) self'
    = (Ret tt, self') /\
    connect issubclass get_type_hints alive equal slot check_types (PyStr "raise") self'
    = (Exc (ValueError AlreadyConnected), self') /\
    exists normed,
      _normalize_slot slot = Ret normed /\
      List.length (subscriptions_of alive equal normed (_slots self')) = 1%nat.
Proof.
  intros issubclass get_type_hints alive equal slot check_types self self' Hc H.
  destruct (connect_state _ _ _ _ _ _ _ _ _ _ H)
    as [[_ Hdup]|(_ & Hcall & _ & slot_sig & mn & mx & normed & _ & _ & Hn & ->)].
  - specialize (Hdup eq_refl). cbn in Hdup. congruence.
  - pose proof (contains_appended alive equal self slot normed mx Hn) as Hin.
    split; [|split].
    + rewrite connect_duplicate; [reflexivity|exact Hcall|exact Hin].
    + rewrite connect_duplicate; [reflexivity|exact Hcall|exact Hin].
    + exists normed. split; [exact Hn|].
      cbn [set_slots _slots]. apply one_subscription.
      apply contains_false in Hc as (normed' & Hn' & Hc).
      assert (normed' = normed) by congruence. now subst normed'.
Qed.

Lemma connect_unique_twice_witness :
  connect same_class no_hints all_alive same_object g false (PyBool true)
          (with_slots [(f, 0); (g, 1)] false)
  = (Ret tt, with_slots [(f, 0); (g, 1)] false) /\
  connect same_class no_hints all_alive same_object g false (PyStr "raise")
          (with_slots [(f, 0); (g, 1)] false)
  = (Exc (ValueError AlreadyConnected), with_slots [(f, 0); (g, 1)] false) /\
  exists normed,
    _normalize_slot g = Ret normed /\
    List.length (subscriptions_of all_alive same_object normed
                   (_slots (with_slots [(f, 0); (g, 1)] false))) = 1%nat.
Proof.
  apply (connect_unique_twice same_class no_hints all_alive same_object g false
           (with_slots [(f, 0)] false));
    reflexivity.
Defined.

Lemma stored_ok_remove_first (alive : ObjId -> bool)
    (equal : ObjId -> ObjId -> bool) (normed : PyValue) (slots : list StoredSlot) :
  Forall (fun s => stored_ok s = true) slots ->
  Forall (fun s => stored_ok s = true) (remove_first alive equal normed slots).
Proof.
  induction slots as [|[s m] rest IH]; intros H; [constructor|].
  inversion H as [|? ? Hs Hrest]; subst. cbn [remove_first].
  destruct (slot_eq alive equal s normed); [exact Hrest|].
  constructor; [exact Hs|now apply IH].
Qed.

(** The subscription list keeps its form: if every stored callback is in
    normal form (no bound method, no pair of an object and a name) with a
    max-arity that is not negative, then so it is after [connect] and after
    [disconnect], however they end.  An empty dispatcher is of that form, so
    [emit] never meets a malformed subscription. *)
Theorem subscriptions_stay_normalized :
  forall issubclass get_type_hints alive equal slot check_types unique
         (target : option PyValue) missing_ok self,
    Forall (fun s => stored_ok s = true) (_slots self) ->
    Forall (fun s => stored_ok s = true)
      (_slots (snd (connect issubclass get_type_hints alive equal slot check_types
                      unique self))) /\
    Forall (fun s => stored_ok s = true)
      (_slots (snd (disconnect alive equal target missing_ok self))) /\
    forall s, In s (_slots self) ->
      well_formed_slot (fst s) = true /\ ismethod (fst s) = false /\ 0 <= snd s.
Proof.
  intros issubclass get_type_hints alive equal slot check_types unique target
    missing_ok self H.
  split; [|split].
  - destruct (connect issubclass get_type_hints alive equal slot check_types
                unique self) as [r self'] eqn:Ec.
    destruct (connect_state _ _ _ _ _ _ _ _ _ _ Ec)
      as [[-> _]|(_ & _ & _ & slot_sig & mn & mx & normed & _ & Hrange & Hn & ->)];
      [exact H|].
    cbn [snd set_slots _slots]. apply Forall_app. split; [exact H|].
    constructor; [|constructor].
    unfold stored_ok. cbn [fst snd].
    rewrite (normalize_slot_normal _ _ Hn), py_eq_refl.
    apply acceptable_posarg_range_bounds in Hrange.
    apply Z.leb_le. lia.
  - destruct target as [t|]; [|constructor].
    destruct (contains_cases alive equal self t)
      as [(normed & [|] & Hn & Et)|(e & Hn & _)].
    + destruct (disconnect_connected alive equal self t Et)
        as (normed' & b & x & m & a & _ & _ & _ & _ & Hd).
      rewrite Hd, <- (Hd true), (disconnect_remove_first _ _ _ _ _ Hn).
      cbn [snd set_slots _slots]. now apply stored_ok_remove_first.
    + destruct (disconnect_missing alive equal self t Et) as [Ht Hf].
      destruct missing_ok; [rewrite Ht|rewrite Hf]; exact H.
    + rewrite (disconnect_raises alive equal self t e missing_ok Hn). exact H.
  - intros s Hs. rewrite Forall_forall in H. specialize (H s Hs).
    unfold stored_ok in H. apply andb_true_iff in H as [Hn Hm].
    apply Z.leb_le in Hm.
    destruct s as [[ | | | | | | | ] m]; cbn in *; try discriminate;
      now repeat split.
Qed.

Lemma subscriptions_stay_normalized_witness :
  Forall (fun s => stored_ok s = true)
    (_slots (snd (connect same_class no_hints all_alive same_object on_change false
                    (PyBool false)
                    (with_slots [(f, 0); (star, 10000000000)] false)))) /\
  Forall (fun s => stored_ok s = true)
    (_slots (snd (disconnect all_alive same_object (Some star) false
                    (with_slots [(f, 0); (star, 10000000000)] false)))) /\
  forall s, In s (_slots (with_slots [(f, 0); (star, 10000000000)] false)) ->
    well_formed_slot (fst s) = true /\ ismethod (fst s) = false /\ 0 <= snd s.
Proof.
  apply (subscriptions_stay_normalized same_class no_hints all_alive same_object
           on_change false (PyBool false) (Some star) false
           (with_slots [(f, 0); (star, 10000000000)] false)).
  repeat constructor.
Defined.

(** ** Emission, blocking *)

(** Emitting inside the scope of the guard is doing nothing inside it,
    whatever the callbacks are: none is called, and what the callbacks own is
    untouched. *)
Theorem emit_inside_guard :
  forall U equal (invoke : PyValue -> list PyValue -> M (World U) unit)
         fuel self args (w : World U),
    with_blocked self (emit equal invoke fuel self args) w
    = with_blocked self (ret tt) w /\
    user (snd (with_blocked self (emit equal invoke fuel self args) w)) = user w /\
    _slots (instances (snd (with_blocked self (emit equal invoke fuel self args) w))
              self)
    = _slots (instances w self).
Proof.
  intros U equal invoke fuel self args w.
  unfold with_blocked, py_with, bind, SignalBlocker__enter__,
    SignalBlocker__exit__, on_instance, block, modify, blocked, emit, get, ret.
  cbn. rewrite !Nat.eqb_refl. cbn. now rewrite !Nat.eqb_refl.
Qed.

Lemma set_current_emitter_back {U} (e : option nat) (w : World U) :
  set_current_emitter (_current_emitter w) (set_current_emitter e w) = w.
Proof. now destruct w. Qed.

(** On a dispatcher without subscriptions, [emit] changes nothing and calls
    nothing. *)
Theorem emit_without_subscriptions :
  forall U equal (invoke : PyValue -> list PyValue -> M (World U) unit)
         fuel self args (w : World U),
    _slots (instances w self) = [] ->
    emit equal invoke (S fuel) self args w = (Ret tt, w).
Proof.
  intros U equal invoke fuel self args w H.
  unfold emit. unfold bind at 1, get. cbn beta iota.
  destruct (_is_blocked (instances w self)); [reflexivity|].
  unfold bind, _emitting, try_finally. rewrite emit_loop_step.
  cbn [set_current_emitter instances]. rewrite H. cbn.
  now rewrite set_current_emitter_back.
Qed.

Lemma emit_without_subscriptions_witness :
  emit same_object failing 1 0 [PyInt 42] (world_of int_channel None [] tt)
  = (Ret tt, world_of int_channel None [] tt).
Proof.
  apply (emit_without_subscriptions unit same_object failing 0 0 [PyInt 42]
           (world_of int_channel None [] tt)).
  reflexivity.
Defined.

(** When [emit] raises (a callback raised: the exception is not caught),
    nothing is pruned: with callbacks that leave the list and the receivers
    alone, the subscription list is as before, dead references included, and
    the emitter context is restored. *)
Theorem emit_raising_keeps_subscriptions :
  forall U equal (invoke : PyValue -> list PyValue -> M (World U) unit)
         fuel self args (w w' : World U) e,
    stable self invoke ->
    (forall s, In s (_slots (instances w self)) -> well_formed_slot (fst s) = true) ->
    (List.length (_slots (instances w self)) < fuel)%nat ->
    emit equal invoke fuel self args w = (Exc e, w') ->
    _slots (instances w' self) = _slots (instances w self) /\
    _current_emitter w' = _current_emitter w /\
    fst (for_each (live_slots w (_slots (instances w self)))
                  (invoke_slot invoke w args)
                  (set_current_emitter (Some self) w)) = Exc e.
Proof.
  intros U equal invoke fuel self args w w' e Hst Hwf Hfuel H.
  unfold emit in H. unfold bind at 1, get in H. cbn beta iota in H.
  destruct (_is_blocked (instances w self)); [discriminate|].
  unfold bind at 1 in H. unfold _emitting, try_finally in H.
  rewrite (emit_loop_run invoke self args w Hst) in H;
    [|exact Hwf|apply frame_set_current_emitter|lia].
  cbn [skipn] in H. unfold bind at 1 in H.
  pose proof (for_each_frame invoke self w args
                (live_slots w (_slots (instances w self))) Hst
                (set_current_emitter (Some self) w)) as Hfr.
  destruct (for_each (live_slots w (_slots (instances w self)))
                     (invoke_slot invoke w args)
                     (set_current_emitter (Some self) w)) as [[[]|e'|] w1];
    cbn [ret fst snd] in *.
  - destruct (disconnect_each equal self
                (dead_slots w (_slots (instances w self)))
                (dead_slots_normalized w (_slots (instances w self)))
                (set_current_emitter (_current_emitter w) w1))
      as (w2 & Hrun & _).
    cbn [app] in H. rewrite Hrun in H. discriminate.
  - injection H as <- <-. repeat split.
    exact (proj1 Hfr).
  - discriminate.
Qed.

Lemma emit_raising_keeps_subscriptions_witness :
  _slots (instances (snd (emit same_object failing 4 0 [PyInt 42]
                            (with_receiver [] false))) 0)
  = _slots (instances (with_receiver [] false) 0) /\
  _current_emitter (snd (emit same_object failing 4 0 [PyInt 42]
                           (with_receiver [] false)))
  = _current_emitter (with_receiver [] false) /\
  fst (for_each (live_slots (with_receiver [] false)
                   (_slots (instances (with_receiver [] false) 0)))
                (invoke_slot failing (with_receiver [] false) [PyInt 42])
                (set_current_emitter (Some 0%nat) (with_receiver [] false)))
  = Exc (Exception (Text "boom")).
Proof.
  apply (emit_raising_keeps_subscriptions CallLog same_object failing 4 0 [PyInt 42]
           (with_receiver [] false)
           (snd (emit same_object failing 4 0 [PyInt 42] (with_receiver [] false)))
           (Exception (Text "boom"))).
  - intros cb args w. repeat split.
  - intros s [<-|[<-|[<-|[]]]]; reflexivity.
  - simpl. lia.
  - reflexivity.
Defined.

(** ** The descriptor *)

(** The loop over a multi-signature declaration appends, in order, the
    signature that each argument declares, and raises at the first argument
    that is a plain type. *)
Lemma build_signatures_outcome (types : list TypeSpec) :
  forall _signatures,
    (forallb is_sequence_or_signature types = true /\
     exists built,
       build_signatures types _signatures = Ret (_signatures ++ built) /\
       Forall2 declares types built) \/
    (forallb is_sequence_or_signature types = false /\
     build_signatures types _signatures = Exc not_a_signature).
Proof.
  induction types as [|t rest IH]; intros acc.
  - left. split; [reflexivity|]. exists []. rewrite app_nil_r. now split.
  - destruct t as [a|ts|s]; cbn [build_signatures forallb is_sequence_or_signature andb].
    + right. now split.
    + destruct (IH (acc ++ [_build_signature ts]))
        as [(Hall & built & -> & Hd)|(Hall & ->)].
      * left. split; [exact Hall|]. exists (_build_signature ts :: built).
        rewrite <- app_assoc. split; [reflexivity|]. now constructor.
      * right. now split.
    + destruct (IH (acc ++ [s])) as [(Hall & built & -> & Hd)|(Hall & ->)].
      * left. split; [exact Hall|]. exists (s :: built).
        rewrite <- app_assoc. split; [reflexivity|]. now constructor.
      * right. now split.
Qed.

(** [Signal( *types, name=...)]: without arguments it declares the one
    signature without parameters; with a first argument that is a plain
    type, one signature with a parameter for each argument; otherwise, in
    order, the signature that each argument declares (the [Signature]
    itself, or the one built from the list or tuple).  It fails exactly when
    the first argument is a list, tuple or [Signature] and a later one is a
    plain type, and then with the [TypeError] "each signature in a
    multi-signature sequence must be ...".  A descriptor so made has at
    least one signature, no dispatcher yet, and no name: the [name] given is
    not kept. *)
Theorem signal_init_outcomes :
  forall (types : list TypeSpec) (name : option string),
    (forall s,
       Signal__init__ types name = Ret s ->
       Signal_signatures s <> [] /\
       Signal_name s = None /\
       _signal_instances s = None /\
       match types with
       | [] => Signal_signatures s = [[]]
       | t0 :: _ =>
           if is_sequence_or_signature t0
           then Forall2 declares types (Signal_signatures s)
           else Signal_signatures s = [_build_signature (map as_annotation types)] /\
                len (_build_signature (map as_annotation types)) = len types
       end) /\
    (Signal__init__ types name = Exc not_a_signature <->
     (exists t0 rest,
        types = t0 :: rest /\ is_sequence_or_signature t0 = true /\
        forallb is_sequence_or_signature rest = false)) /\
    (forall e, Signal__init__ types name = Exc e -> e = not_a_signature) /\
    Signal__init__ types name <> OutOfFuel.
Proof.
  intros types name. destruct types as [|t0 rest].
  - split; [|split; [|split]].
    + intros s [= <-]. cbn. repeat split. discriminate.
    + split; [discriminate|].
      intros (t0 & rest & H & _). discriminate.
    + discriminate.
    + discriminate.
  - unfold Signal__init__.
    destruct (is_sequence_or_signature t0) eqn:E0; cbn [negb].
    + destruct (build_signatures_outcome (t0 :: rest) [])
        as [(Hall & built & Hb & Hd)|(Hall & Hb)];
        rewrite Hb; cbn [res_bind app];
        cbn [forallb] in Hall; rewrite E0 in Hall; cbn [andb] in Hall.
      * split; [|split; [|split]].
        -- intros s [= <-]. cbn [Signal_signatures Signal_name _signal_instances].
           repeat split; [|exact Hd].
           intros ->. inversion Hd.
        -- split; [discriminate|].
           intros (t & r & [= <- <-] & _ & Hr). congruence.
        -- discriminate.
        -- discriminate.
      * split; [|split; [|split]].
        -- intros s Hs. discriminate.
        -- split; [intros _; exists t0, rest; now repeat split|reflexivity].
        -- now intros e [= <-].
        -- discriminate.
    + split; [|split; [|split]].
      * intros s [= <-]. cbn [Signal_signatures Signal_name _signal_instances].
        repeat split; [discriminate|].
        rewrite len_build_signature. unfold len. now rewrite length_map.
      * split; [discriminate|].
        intros (t & r & [= <- <-] & Ht & _). congruence.
      * discriminate.
      * discriminate.
Qed.

(** Three declarations: [Signal(int, int)], one signature of two
    parameters; [Signal((int,), (int, int))], two signatures; and
    [Signal((int,), int)], which is refused. *)
Example signal_init_examples :
  Signal__init__ [AType (Cls int); AType (Cls int)] None
  = Ret (mkSignal [_build_signature [Cls int; Cls int]] None None) /\
  Signal__init__ [ASequence [Cls int]; ASequence [Cls int; Cls int]] (Some "changed"%string)
  = Ret (mkSignal [_build_signature [Cls int]; _build_signature [Cls int; Cls int]]
           None None) /\
  Signal__init__ [ASequence [Cls int]; AType (Cls int)] None = Exc not_a_signature.
Proof. repeat split. Qed.




(** ** Diagnostics of connect *)

Lemma length_insert_desc {A} (key : A -> Z) (x : A) (l : list A) :
  List.length (insert_desc key x l) = S (List.length l).
Proof.
  induction l as [|y l IH]; [reflexivity|].
  cbn [insert_desc]. destruct (key y <=? key x); cbn; [reflexivity|now rewrite IH].
Qed.

Lemma length_sorted_reverse {A} (xs : list A) (key : A -> Z) :
  List.length (sorted_reverse xs key) = List.length xs.
Proof.
  unfold sorted_reverse. induction xs as [|x xs IH]; [reflexivity|].
  cbn [fold_right]. now rewrite length_insert_desc, IH.
Qed.

Lemma match_signature_cannot_connect
    (issubclass : PyClass -> PyClass -> bool)
    (get_type_hints : PyValue -> Res (list (string * Annotation)))
    slot check_types slot_sig accepted specs :
  forall errors s errors' accepted',
    match_signature issubclass get_type_hints slot check_types slot_sig accepted
                    specs errors
    = Exc (ValueError (CannotConnect s errors' accepted')) ->
    s = slot /\ accepted' = accepted /\
    List.length errors' = (List.length errors + List.length specs)%nat.
Proof.
  induction specs as [|spec rest IH]; intros errors s errors' accepted' H.
  - cbn in H. injection H as <- <- <-. repeat split.
    now rewrite Nat.add_0_r.
  - cbn [match_signature] in H.
    destruct (try_spec issubclass get_type_hints slot check_types slot_sig spec)
      as [m|[m|m|m|m]|]; try discriminate.
    destruct (IH _ _ _ _ H) as (Hs & Ha & Hl).
    repeat split; auto. rewrite Hl, length_app. cbn. lia.
Qed.

(** When [connect] finds no compatible signature, the [ValueError] "Cannot
    connect slot ..." it raises names the slot and the declared signatures
    and lists one reason for each declared signature. *)
Theorem cannot_connect_lists_every_signature :
  forall issubclass get_type_hints alive equal slot check_types unique self self'
         s errors accepted,
    connect issubclass get_type_hints alive equal slot check_types unique self
    = (Exc (ValueError (CannotConnect s errors accepted)), self') ->
    s = slot /\ accepted = signatures self /\
    List.length errors = List.length (signatures self) /\
    self' = self.
Proof.
  intros issubclass get_type_hints alive equal slot check_types unique self self'
         s errors accepted H.
  destruct (callable slot) eqn:Ecall;
    [|rewrite connect_non_callable in H by exact Ecall; discriminate].
  destruct (unique_and_contains_cases alive equal unique self slot)
    as [[[|] Eu]|(e' & Eu & He & _)].
  - rewrite connect_duplicate in H by assumption.
    destruct (eq_str unique "raise"); discriminate.
  - rewrite connect_unfold in H by assumption.
    destruct (signature slot) as [slot_sig|e|] eqn:Esig; [| |discriminate].
    + destruct (match_signature _ _ _ _ _ _ _ _) as [m|e|] eqn:Em;
        [|injection H as -> <-|discriminate].
      * destruct (_normalize_slot slot) as [normed|e|] eqn:En;
          [discriminate| |discriminate].
        destruct (normalize_slot_raises _ _ En) as (obj & -> & _). discriminate.
      * destruct (match_signature_cannot_connect _ _ _ _ _ _ _ _ _ _ _ Em)
          as (Hs & Ha & Hl).
        rewrite length_sorted_reverse in Hl. now repeat split.
    + destruct slot as [? [?|]|? ? [?|]| | | | |? ? [?|]|];
        try discriminate; cbn in Esig; injection Esig as <-; discriminate.
  - rewrite (connect_test_raises _ _ _ _ _ _ _ _ _ Ecall Eu) in H.
    destruct (normalize_slot_raises _ _ He) as (obj & -> & _). discriminate.
Qed.

Lemma cannot_connect_lists_every_signature_witness :
  h = h /\
  [_build_signature [Cls int]] = signatures (with_slots [(f, 0)] false) /\
  List.length [TooFewSpecParams 3 1]
  = List.length (signatures (with_slots [(f, 0)] false)) /\
  with_slots [(f, 0)] false = with_slots [(f, 0)] false.
Proof.
  apply (cannot_connect_lists_every_signature same_class no_hints all_alive
           same_object h false (PyBool false) (with_slots [(f, 0)] false)).
  reflexivity.
Defined.
